(** * samsungctl: the websocket remote-control session

    A shallow embedding of [samsungctl/remote_websocket.py]: the
    [RemoteWebsocket] session (token file, handshake, receive loop,
    callback registry, power property) and the [Mouse] pointer batch.

    Python objects are records, attribute assignment is explicit state
    passing through a small state-and-exception monad, and the outside
    world (the network, the token file, the logger, the clock) is a part of
    the state that the code reads and appends to. *)

From Stdlib Require Import List String Ascii Bool Arith ZArith QArith Lia.
Import ListNotations.
Set Warnings "-register-all".
Local Close Scope Q_scope.
Local Open Scope string_scope.
Local Open Scope list_scope.

(* ================================================================== *)
(** * Python strings *)

Module PyStr.

Definition nl : ascii := "010"%char.
Definition NL : string := String nl EmptyString.

(** [s.split(c)] for a one-character separator: never returns the empty
    list, [''.split('\n') == ['']]. *)
Fixpoint split (c : ascii) (s : string) : list string :=
  match s with
  | EmptyString => [EmptyString]
  | String a r =>
      if Ascii.eqb a c then EmptyString :: split c r
      else match split c r with
           | [] => [String a EmptyString]
           | h :: t => String a h :: t
           end
  end.

(** [sep.join(l)] *)
Fixpoint join (sep : string) (l : list string) : string :=
  match l with
  | [] => EmptyString
  | x :: t => match t with
              | [] => x
              | _ :: _ => x ++ sep ++ join sep t
              end
  end.

(** [s.startswith(p)] *)
Definition startswith (s p : string) : bool := String.prefix p s.

(** [c.isspace()] on the code points below 256. *)
Definition isspace (c : ascii) : bool :=
  let n := nat_of_ascii c in
  (((9 <=? n) && (n <=? 13)) || ((28 <=? n) && (n <=? 32))
   || (n =? 133) || (n =? 160))%nat.

Fixpoint all_space (s : string) : bool :=
  match s with
  | EmptyString => true
  | String a r => isspace a && all_space r
  end.

(** the truth value of [s.strip()]: false exactly on blank strings. *)
Definition strip_nonempty (s : string) : bool := negb (all_space s).

(** truth value of a string *)
Definition truthy (s : string) : bool :=
  match s with EmptyString => false | String _ _ => true end.

Fixpoint drop (n : nat) (s : string) : string :=
  match n, s with
  | O, _ => s
  | S _, EmptyString => EmptyString
  | S n', String _ r => drop n' r
  end.

(** [s.replace(old, new)] for a non-empty [old]; the recursion is on a
    counter that starts at the length of [s]. *)
Fixpoint replace_aux (k : nat) (old new s : string) : string :=
  match k with
  | O => s
  | S k' =>
      match s with
      | EmptyString => EmptyString
      | String a r =>
          if String.prefix old s
          then new ++ replace_aux k' old new (drop (String.length old) s)
          else String a (replace_aux k' old new r)
      end
  end.

Definition replace (s old new : string) : string :=
  replace_aux (String.length s) old new s.

(** [sub in s] *)
Fixpoint contains (sub s : string) : bool :=
  String.prefix sub s
  || match s with
     | EmptyString => false
     | String _ r => contains sub r
     end.

End PyStr.

(* ================================================================== *)
(** * Decoded JSON values and the Python operators used on them *)

Inductive json : Type :=
| JNull
| JBool (b : bool)
| JNum (q : Q)
| JStr (s : string)
| JArr (items : list json)
| JObj (fields : list (string * json)).

(** The exceptions that the code raises or lets through. *)
Inductive exn : Type :=
| RuntimeError (msg : string)
| ValueError
| TypeError
| KeyError
| AttributeError
| ConnectionClosed
| OSError.

(** Result of a call: a value, a raised exception, or a recursion budget
    that ran out (the last one is an artefact of the model). *)
Inductive res (A : Type) : Type :=
| Val (a : A)
| Exc (e : exn)
| Fuel.
Arguments Val {A} a.
Arguments Exc {A} e.
Arguments Fuel {A}.

Module Py.

Fixpoint lookup (k : string) (fields : list (string * json)) : option json :=
  match fields with
  | [] => None
  | (k', v) :: t => if String.eqb k k' then Some v else lookup k t
  end.

Definition is_str (k : string) (j : json) : bool :=
  match j with JStr s => String.eqb s k | _ => false end.

(** [k in v] for a string [k] *)
Definition contains (k : string) (v : json) : res bool :=
  match v with
  | JObj fields => Val (match lookup k fields with Some _ => true | None => false end)
  | JStr s => Val (PyStr.contains k s)
  | JArr items => Val (existsb (is_str k) items)
  | JNull | JBool _ | JNum _ => Exc TypeError
  end.

(** [v[k]] for a string [k] *)
Definition getitem (v : json) (k : string) : res json :=
  match v with
  | JObj fields => match lookup k fields with
                   | Some x => Val x
                   | None => Exc KeyError
                   end
  | _ => Exc TypeError
  end.

(** [v == d] for a string [d] *)
Definition eq_str (v : json) (d : string) : bool := is_str d v.

End Py.

(* ================================================================== *)
(** * The session object and its world *)

(** The callbacks that the module registers: the two of [open()], the
    three of [Mouse.run()] and the [voice_callback] of the two voice
    methods (the two of [applications], which store a reply, are left
    out).  A Python closure is equal only to itself; the closures of one
    [open()] call are identified by the [auth_event] they share ([ev]),
    those of one [Mouse.run()] call by a fresh identity ([run]).  [line] is
    the variable of the enclosing [open()] that [auth_callback] reads. *)
Inductive handler : Type :=
| AuthCallback (ev : nat) (line : string)
| UnauthorizedCallback (ev : nat) (line : string)
| ImeStart (run ev : nat)
| ImeUpdate (run ev : nat)
| TouchEnable (run ev : nat)
| VoiceCallback (ev : nat).

(** One element [[callback, key, data]] of [_registered_callbacks];
    [data] is [None] or a string. *)
Definition entry : Type := handler * string * option string.

(** What [recv()] gets from the socket. *)
Inductive message : Type :=
| MEmpty                (* a falsy frame *)
| MBad                  (* text that [json.loads] rejects *)
| MText (j : json).     (* text that decodes to [j] *)

Inductive frame : Type :=
| RecvError             (* [recv()] raises: the peer hung up *)
| Recv (m : message).

(** What [websocket.create_connection] meets. *)
Inductive script : Type :=
| Refused
| Accept (frames : list frame).

(** The URL that [open()] builds; the base64 text of the name is kept as
    the name itself. *)
Record url : Type := mkUrl {
  url_secure : bool;
  url_host : string;
  url_port : Z;
  url_name : string;
  url_token : string
}.

Inductive level : Type := Debug | Info | Error.

Inductive waited : Type :=
| OnPower
| OnEvent (ev : nat).

Inductive action : Type :=
| Log (lvl : level) (msg : string)
| Wol (mac : string)
| Connect (u : url)
| Close (conn : nat)
| ThreadStart
| Wait (w : waited) (bound : Q)
| Fire (e : entry) (response : json)
| Send (conn : nat) (payload : json).

Record remote : Type := mkRemote {
  host : string; (* [config['host']] *)
  port : Z; (* [config['port']] *)
  name : string; (* [config['name']] *)
  token_file : string; (* contents of the file at [self.token_file] *)
  loop_event : bool; (* [self._loop_event] is set *)
  power_event : bool; (* [self._power_event] is set *)
  registered_callbacks : list entry; (* [self._registered_callbacks] *)
  mac_address_ : option string; (* [self._mac_address] *)
  sock : option nat; (* [self.sock]: the open connection, if any *)
  running : bool; (* [self._running] *)
  connection : bool; (* truth value of [self.connection], see below *)
  events : list nat; (* the [threading.Event] objects that are set *)
  next_id : nat; (* next fresh object identity *)
  net : list script; (* what the next connection attempts will meet *)
  next_conn : nat; (* number of connections opened so far *)
  inbox : list frame; (* frames not yet read from [self.sock] *)
  parked : bool; (* a receive thread is blocked in [recv] *)
  arp : option string; (* what [wake_on_lan.get_mac_address] answers *)
  tv_off : list string; (* the keys on which the television hangs up *)
  trace : list action (* what the session did, oldest first *)
}.

Definition set_port (v : Z) (s : remote) : remote :=
  mkRemote (host s) v (name s) (token_file s) (loop_event s)
    (power_event s) (registered_callbacks s) (mac_address_ s) (sock s)
    (running s) (connection s) (events s) (next_id s) (net s) (next_conn s)
    (inbox s) (parked s) (arp s) (tv_off s) (trace s).

Definition set_token_file (v : string) (s : remote) : remote :=
  mkRemote (host s) (port s) (name s) v (loop_event s) (power_event s)
    (registered_callbacks s) (mac_address_ s) (sock s) (running s)
    (connection s) (events s) (next_id s) (net s) (next_conn s) (inbox s)
    (parked s) (arp s) (tv_off s) (trace s).

Definition set_loop_event (v : bool) (s : remote) : remote :=
  mkRemote (host s) (port s) (name s) (token_file s) v (power_event s)
    (registered_callbacks s) (mac_address_ s) (sock s) (running s)
    (connection s) (events s) (next_id s) (net s) (next_conn s) (inbox s)
    (parked s) (arp s) (tv_off s) (trace s).

Definition set_power_event (v : bool) (s : remote) : remote :=
  mkRemote (host s) (port s) (name s) (token_file s) (loop_event s) v
    (registered_callbacks s) (mac_address_ s) (sock s) (running s)
    (connection s) (events s) (next_id s) (net s) (next_conn s) (inbox s)
    (parked s) (arp s) (tv_off s) (trace s).

Definition set_registered_callbacks (v : list entry) (s : remote) : remote :=
  mkRemote (host s) (port s) (name s) (token_file s) (loop_event s)
    (power_event s) v (mac_address_ s) (sock s) (running s) (connection s)
    (events s) (next_id s) (net s) (next_conn s) (inbox s) (parked s)
    (arp s) (tv_off s) (trace s).

Definition set_mac_address_ (v : option string) (s : remote) : remote :=
  mkRemote (host s) (port s) (name s) (token_file s) (loop_event s)
    (power_event s) (registered_callbacks s) v (sock s) (running s)
    (connection s) (events s) (next_id s) (net s) (next_conn s) (inbox s)
    (parked s) (arp s) (tv_off s) (trace s).

Definition set_sock (v : option nat) (s : remote) : remote :=
  mkRemote (host s) (port s) (name s) (token_file s) (loop_event s)
    (power_event s) (registered_callbacks s) (mac_address_ s) v (running s)
    (connection s) (events s) (next_id s) (net s) (next_conn s) (inbox s)
    (parked s) (arp s) (tv_off s) (trace s).

Definition set_running (v : bool) (s : remote) : remote :=
  mkRemote (host s) (port s) (name s) (token_file s) (loop_event s)
    (power_event s) (registered_callbacks s) (mac_address_ s) (sock s) v
    (connection s) (events s) (next_id s) (net s) (next_conn s) (inbox s)
    (parked s) (arp s) (tv_off s) (trace s).

Definition set_events (v : list nat) (s : remote) : remote :=
  mkRemote (host s) (port s) (name s) (token_file s) (loop_event s)
    (power_event s) (registered_callbacks s) (mac_address_ s) (sock s)
    (running s) (connection s) v (next_id s) (net s) (next_conn s)
    (inbox s) (parked s) (arp s) (tv_off s) (trace s).

Definition set_next_id (v : nat) (s : remote) : remote :=
  mkRemote (host s) (port s) (name s) (token_file s) (loop_event s)
    (power_event s) (registered_callbacks s) (mac_address_ s) (sock s)
    (running s) (connection s) (events s) v (net s) (next_conn s) (inbox s)
    (parked s) (arp s) (tv_off s) (trace s).

Definition set_net (v : list script) (s : remote) : remote :=
  mkRemote (host s) (port s) (name s) (token_file s) (loop_event s)
    (power_event s) (registered_callbacks s) (mac_address_ s) (sock s)
    (running s) (connection s) (events s) (next_id s) v (next_conn s)
    (inbox s) (parked s) (arp s) (tv_off s) (trace s).

Definition set_next_conn (v : nat) (s : remote) : remote :=
  mkRemote (host s) (port s) (name s) (token_file s) (loop_event s)
    (power_event s) (registered_callbacks s) (mac_address_ s) (sock s)
    (running s) (connection s) (events s) (next_id s) (net s) v (inbox s)
    (parked s) (arp s) (tv_off s) (trace s).

Definition set_inbox (v : list frame) (s : remote) : remote :=
  mkRemote (host s) (port s) (name s) (token_file s) (loop_event s)
    (power_event s) (registered_callbacks s) (mac_address_ s) (sock s)
    (running s) (connection s) (events s) (next_id s) (net s) (next_conn s)
    v (parked s) (arp s) (tv_off s) (trace s).

Definition set_parked (v : bool) (s : remote) : remote :=
  mkRemote (host s) (port s) (name s) (token_file s) (loop_event s)
    (power_event s) (registered_callbacks s) (mac_address_ s) (sock s)
    (running s) (connection s) (events s) (next_id s) (net s) (next_conn s)
    (inbox s) v (arp s) (tv_off s) (trace s).

Definition set_trace (v : list action) (s : remote) : remote :=
  mkRemote (host s) (port s) (name s) (token_file s) (loop_event s)
    (power_event s) (registered_callbacks s) (mac_address_ s) (sock s)
    (running s) (connection s) (events s) (next_id s) (net s) (next_conn s)
    (inbox s) (parked s) (arp s) (tv_off s) v.
(** [connection] is read by [Mouse._send] ([self._remote.connection]) but
    no attribute of that name is set in [remote_websocket.py]; its truth
    value is taken as a field of the state. *)

(* ================================================================== *)
(** * State and exceptions *)

Definition M (A : Type) : Type := remote -> res A * remote.

Definition ret {A} (a : A) : M A := fun s => (Val a, s).

Definition bind {A B} (m : M A) (k : A -> M B) : M B :=
  fun s =>
    match m s with
    | (Val a, s') => k a s'
    | (Exc e, s') => (Exc e, s')
    | (Fuel, s') => (Fuel, s')
    end.

Definition raise {A} (e : exn) : M A := fun s => (Exc e, s).
Definition out_of_fuel {A} : M A := fun s => (Fuel, s).
Definition get : M remote := fun s => (Val s, s).
Definition modify (f : remote -> remote) : M unit := fun s => (Val tt, f s).
Definition lift {A} (r : res A) : M A := fun s => (r, s).

(** [try: m  except: h] with a bare [except]. *)
Definition try_except (m : M unit) (h : M unit) : M unit :=
  fun s =>
    match m s with
    | (Exc _, s') => h s'
    | r => r
    end.

(** [try: m  except RuntimeError: h] *)
Definition try_except_RuntimeError (m : M unit) (h : M unit) : M unit :=
  fun s =>
    match m s with
    | (Exc (RuntimeError _), s') => h s'
    | r => r
    end.

Declare Scope monad_scope.
Delimit Scope monad_scope with monad.
Notation "x <- c1 ;; c2" := (bind c1 (fun x => c2))
  (at level 61, c1 at next level, right associativity) : monad_scope.
Notation "c1 ;; c2" := (bind c1 (fun _ => c2))
  (at level 61, right associativity) : monad_scope.
Local Open Scope monad_scope.

Definition when (b : bool) (m : M unit) : M unit := if b then m else ret tt.

Definition emit (a : action) : M unit :=
  modify (fun s => set_trace (trace s ++ [a]) s).

Definition log (lvl : level) (msg : string) : M unit := emit (Log lvl msg).

(** [threading.Event()]: a fresh object, not set. *)
Definition new_id : M nat :=
  fun s => (Val (next_id s), set_next_id (S (next_id s)) s).

Definition event_is_set (ev : nat) (s : remote) : bool :=
  existsb (Nat.eqb ev) (events s).

Definition event_set (ev : nat) : M unit :=
  modify (fun s => set_events (ev :: events s) s).

Definition event_clear (ev : nat) : M unit :=
  modify (fun s =>
    set_events (filter (fun e => negb (Nat.eqb ev e)) (events s)) s).

(* ================================================================== *)
(** * The callback registry *)

Definition handler_eqb (a b : handler) : bool :=
  match a, b with
  | AuthCallback e l, AuthCallback e' l' => Nat.eqb e e' && String.eqb l l'
  | UnauthorizedCallback e l, UnauthorizedCallback e' l' =>
      Nat.eqb e e' && String.eqb l l'
  | ImeStart r e, ImeStart r' e' => Nat.eqb r r' && Nat.eqb e e'
  | ImeUpdate r e, ImeUpdate r' e' => Nat.eqb r r' && Nat.eqb e e'
  | TouchEnable r e, TouchEnable r' e' => Nat.eqb r r' && Nat.eqb e e'
  | VoiceCallback e, VoiceCallback e' => Nat.eqb e e'
  | _, _ => false
  end.

Definition data_eqb (a b : option string) : bool :=
  match a, b with
  | None, None => true
  | Some x, Some y => String.eqb x y
  | _, _ => false
  end.

Definition entry_eqb (a b : entry) : bool :=
  let '(h, k, d) := a in
  let '(h', k', d') := b in
  handler_eqb h h' && String.eqb k k' && data_eqb d d'.

(** [l.remove(x)]: drops the first element equal to [x]; [None] stands
    for the [ValueError] of a missing element. *)
Fixpoint list_remove {A} (eqb : A -> A -> bool) (x : A) (l : list A)
  : option (list A) :=
  match l with
  | [] => None
  | y :: t =>
      if eqb y x then Some t
      else match list_remove eqb x t with
           | Some t' => Some (y :: t')
           | None => None
           end
  end.

Definition register_receive_callback
  (callback : handler) (key : string) (data : option string) : M unit :=
  modify (fun s =>
    set_registered_callbacks
      (registered_callbacks s ++ [(callback, key, data)]) s).

Definition unregister_receive_callback
  (callback : handler) (key : string) (data : option string) : M unit :=
  s <- get ;;
  if existsb (entry_eqb (callback, key, data)) (registered_callbacks s)
  then match list_remove entry_eqb (callback, key, data)
               (registered_callbacks s) with
       | Some l => modify (set_registered_callbacks l)
       | None => raise ValueError
       end
  else ret tt.

(** [key in response and (data is None or response[key] == data)] *)
Definition matches (key : string) (data : option string) (response : json)
  : res bool :=
  match Py.contains key response with
  | Val true =>
      match data with
      | None => Val true
      | Some d =>
          match Py.getitem response key with
          | Val v => Val (Py.eq_str v d)
          | Exc e => Exc e
          | Fuel => Fuel
          end
      end
  | r => r
  end.

(* ================================================================== *)
(** * [RemoteWebsocket]

    The receive thread and the caller run one after the other: the thread
    started by [open()] handles the frames that are already there and then
    blocks in [recv()] ([parked]); closing the socket under a blocked
    thread makes its [recv()] raise, and the thread finishes at once.
    [receive_lock] and [_thread] have no counterpart: nothing runs at the
    same time, and [_thread] is never read.  Log lines keep their fixed
    text and the tokens, not the raw frames. *)

(** [self.power] *)
Definition power (s : remote) : bool :=
  match sock s with Some _ => true | None => false end.

(** [self.mac_address] *)
Definition mac_address : M string :=
  s <- get ;;
  match mac_address_ s with
  | Some m => ret m
  | None =>
      let m := match arp s with Some a => a | None => EmptyString end in
      modify (set_mac_address_ (Some m)) ;;
      ret m
  end.

(** The statements of [loop()] after its [while]. *)
Definition teardown : M unit :=
  modify (set_power_event true) ;;
  modify (set_sock None) ;;
  log Info "Websocket closed" ;;
  modify (set_loop_event false) ;;
  modify (set_registered_callbacks []).

(** A blocked [recv()] raises: [except: self._loop_event.set()], the
    [while] ends, the thread finishes. *)
Definition recv_fails_in_parked_thread : M unit :=
  modify (set_parked false) ;;
  modify (set_inbox []) ;;
  modify (set_loop_event true) ;;
  teardown.

Definition close : M unit :=
  s <- get ;;
  match sock s with
  | None => ret tt
  | Some c =>
      modify (set_loop_event true) ;;
      emit (Close c) ;;
      when (parked s) recv_fails_in_parked_thread
  end.

Definition send (method : string) (params : list (string * json)) : M unit :=
  s <- get ;;
  match sock s with
  | None => log Info "Is the TV on???"
  | Some c =>
      emit (Send c (JObj [("method", JStr method); ("params", JObj params)])) ;;
      (* the television may hang up on a key *)
      match Py.lookup "DataOfCmd" params with
      | Some (JStr k) =>
          when (existsb (String.eqb k) (tv_off s) && parked s)
               recv_fails_in_parked_thread
      | _ => ret tt
      end
  end.

Section Receive.

(** [self.open], as called from [unauthorized_callback]. *)
Variable open_rec : M unit.

Definition auth_callback (ev : nat) (line : string) (data : json) : M unit :=
  has_data <- lift (Py.contains "data" data) ;;
  has_token <-
    (if has_data
     then d <- lift (Py.getitem data "data") ;; lift (Py.contains "token" d)
     else ret false) ;;
  when has_token
    (s <- get ;;
     let token_data := PyStr.split PyStr.nl (token_file s) in
     token_data <-
       fold_left
         (fun (acc : M (list string)) (lne : string) =>
            td <- acc ;;
            if PyStr.startswith line (host s ++ ":")%string
            then match list_remove String.eqb lne td with
                 | Some td' => ret td'
                 | None => raise ValueError
                 end
            else ret td)
         token_data (ret token_data) ;;
     d <- lift (Py.getitem data "data") ;;
     t <- lift (Py.getitem d "token") ;;
     new_line <-
       match t with
       | JStr tok => ret (host s ++ ":" ++ tok)%string
       | _ => raise TypeError
       end ;;
     let token_data := token_data ++ [new_line] in
     log Debug ("new token: " ++ last token_data EmptyString)%string ;;
     modify
       (set_token_file (PyStr.join PyStr.NL token_data ++ PyStr.NL)%string)) ;;
  log Debug "Access granted." ;;
  event_set ev ;;
  unregister_receive_callback
    (UnauthorizedCallback ev line) "event" (Some "ms.channel.unauthorized") ;;
  modify (set_power_event true).

Definition unauthorized_callback (ev : nat) (line : string) (_ : json)
  : M unit :=
  event_set ev ;;
  unregister_receive_callback
    (AuthCallback ev line) "event" (Some "ms.channel.connect") ;;
  s <- get ;;
  if (port s =? 8001)%Z
  then
    log Debug "Websocket connection failed. Trying ssl connection" ;;
    modify (set_port 8002%Z) ;;
    open_rec
  else
    close ;;
    raise (RuntimeError "Authentication denied").

(** Calling a registered callback. *)
Definition call (h : handler) (response : json) : M unit :=
  match h with
  | AuthCallback ev line => auth_callback ev line response
  | UnauthorizedCallback ev line => unauthorized_callback ev line response
  | ImeStart _ ev => event_set ev
  | ImeUpdate _ ev => event_set ev
  | TouchEnable _ ev => event_set ev
  | VoiceCallback ev => event_set ev
  end.

(** The [for] of [on_message] over the copy [_registered_callbacks[:]]. *)
Fixpoint dispatch (response : json) (snapshot : list entry) : M unit :=
  match snapshot with
  | [] => ret tt
  | (callback, key, data) :: rest =>
      hit <- lift (matches key data response) ;;
      when hit
        (emit (Fire (callback, key, data) response) ;;
         call callback response ;;
         s <- get ;;
         match list_remove entry_eqb (callback, key, data)
                 (registered_callbacks s) with
         | Some l => modify (set_registered_callbacks l)
         | None => raise ValueError
         end) ;;
      dispatch response rest
  end.

Definition on_message (m : message) : M unit :=
  response <-
    match m with
    | MText j => ret j
    | MEmpty | MBad => raise ValueError
    end ;;
  log Debug "incoming message: " ;;
  s <- get ;;
  dispatch response (registered_callbacks s).

(** [loop()]; [n] bounds the number of turns of the [while]. *)
Fixpoint loop (n : nat) : M unit :=
  match n with
  | O => out_of_fuel
  | S n' =>
      s <- get ;;
      if loop_event s then teardown
      else
        match sock s with
        | None =>
            (* [self.sock.recv] on [None] *)
            modify (set_loop_event true) ;; loop n'
        | Some _ =>
            match inbox s with
            | [] => modify (set_parked true)
            | f :: rest =>
                modify (set_inbox rest) ;;
                match f with
                | RecvError => modify (set_loop_event true)
                | Recv MEmpty => ret tt
                | Recv m =>
                    try_except (on_message m) (modify (set_loop_event true))
                end ;;
                loop n'
            end
        end
  end.

End Receive.

(** The first [for] of [open()]: the saved line of this host and the
    lines of the other hosts. *)
Definition scan_tokens (host : string) (lines : list string)
  : string * list string :=
  fold_left
    (fun (acc : string * list string) (line : string) =>
       let '(token, all_tokens) := acc in
       if negb (PyStr.strip_nonempty line) then acc
       else if PyStr.startswith line (host ++ ":")%string
            then (line, all_tokens)
            else (token, all_tokens ++ [line]))
    lines (EmptyString, []).

(** [websocket.create_connection(url, sslopt=sslopt)] inside its
    [try]/[except]. *)
Definition create_connection (u : url) : M unit :=
  emit (Connect u) ;;
  s <- get ;;
  match net s with
  | [] => raise (RuntimeError "Unable to connect to the TV")
  | Refused :: rest =>
      modify (set_net rest) ;;
      raise (RuntimeError "Unable to connect to the TV")
  | Accept frames :: rest =>
      modify (set_net rest) ;;
      modify (set_sock (Some (next_conn s))) ;;
      modify (set_next_conn (S (next_conn s))) ;;
      modify (set_inbox frames)
  end.

(** [Thread(target=f).start()]: an exception ends the thread only. *)
Definition start_thread (f : M unit) : M unit :=
  emit ThreadStart ;;
  fun s =>
    match f s with
    | (Exc _, s') => (Val tt, s')
    | r => r
    end.

(** The saved token of this host is moved to the end of the file and
    becomes the [&token=...] suffix of the URL. *)
Definition saved_token : M (string * string) :=
  s <- get ;;
  let tokens := token_file s in
  let lines := PyStr.split PyStr.nl tokens in
  let '(token, all_tokens) := scan_tokens (host s) lines in
  let line := last lines EmptyString in
  ta <-
    (if PyStr.truthy token
     then
       let all_tokens := all_tokens ++ [token] in
       let token := PyStr.replace token (host s ++ ":")%string EmptyString in
       log Debug ("using saved token: " ++ token)%string ;;
       ret (("&token=" ++ token)%string, all_tokens)
     else ret (token, all_tokens)) ;;
  let '(token, all_tokens) := ta in
  when (match all_tokens with [] => false | _ :: _ => true end)
    (modify
       (set_token_file (PyStr.join PyStr.NL all_tokens ++ PyStr.NL)%string)) ;;
  ret (token, line).

(** The choice of the variant and the connection. *)
Definition connect (token : string) : M unit :=
  s <- get ;;
  if PyStr.truthy token || (port s =? 8002)%Z
  then
    modify (set_port 8002%Z) ;;
    create_connection (mkUrl true (host s) 8002%Z (name s) token)
  else
    modify (set_port 8001%Z) ;;
    create_connection (mkUrl false (host s) 8001%Z (name s) EmptyString).

(** From [auth_event = threading.Event()] to the end of [open()]. *)
Definition handshake (receive : M unit) (line : string) : M unit :=
  auth_event <- new_id ;;
  let auth := AuthCallback auth_event line in
  let unauthorized := UnauthorizedCallback auth_event line in
  register_receive_callback auth "event" (Some "ms.channel.connect") ;;
  register_receive_callback
    unauthorized "event" (Some "ms.channel.unauthorized") ;;
  start_thread receive ;;
  emit (Wait (OnEvent auth_event) 30%Q) ;;
  s <- get ;;
  if negb (event_is_set auth_event s)
  then close ;; raise (RuntimeError "Auth Failure")
  else modify (set_running true).

(** [open()], given the body of the receive thread; [line] is the
    variable of the first loop as that loop leaves it. *)
Definition open_body (receive : M unit) : M unit :=
  tl <- saved_token ;;
  let '(token, line) := tl in
  s <- get ;;
  when (power s) close ;;
  connect token ;;
  handshake receive line.

(** [open()]: [fuel] bounds the depth of [open()] inside a callback and
    the turns of each receive loop. *)
Fixpoint open (fuel : nat) : M unit :=
  match fuel with
  | O => out_of_fuel
  | S f => open_body (loop (open f) f)
  end.

Definition remote_key (cmd key : string) : list (string * json) :=
  [("Cmd", JStr cmd); ("DataOfCmd", JStr key); ("Option", JStr "false");
   ("TypeOfRemote", JStr "SendRemoteKey")].

(** [control(key, cmd)], given [self.power = True] and [self.open]. *)
Definition control_body (power_on open_ : M unit) (key cmd : string)
  : M unit :=
  s <- get ;;
  if String.eqb key "KEY_POWERON" && negb (power s) then power_on
  else if String.eqb key "KEY_POWER" && negb (power s) then power_on
  else
    when (negb (running s)) open_ ;;
    event <- new_id ;;
    log Info "Sending control command: " ;;
    send "ms.remote.control" (remote_key cmd key) ;;
    emit (Wait (OnEvent event) (15 # 100)%Q).

(** The [while] of the power setter; [n] bounds its turns. *)
Fixpoint power_on_loop (open_ : M unit) (n : nat) (error_count : nat)
  : M nat :=
  match n with
  | O => out_of_fuel
  | S n' =>
      s <- get ;;
      if negb (power_event s) && (error_count <? 6)%nat
      then
        mac <- mac_address ;;
        emit (Wol mac) ;;
        emit (Wait OnPower 10%Q) ;;
        error_count <-
          (fun s =>
             match open_ s with
             | (Val _, s') => (Val error_count, s')
             | (Exc (RuntimeError _), s') => (Val (S error_count), s')
             | (Exc e, s') => (Exc e, s')
             | (Fuel, s') => (Fuel, s')
             end) ;;
        power_on_loop open_ n' error_count
      else ret error_count
  end.

(** [self.power = value] *)
Definition power_setter_body
  (open_ : M unit) (control : string -> string -> M unit) (n : nat)
  (value : bool) : M unit :=
  modify (set_power_event false) ;;
  s <- get ;;
  if value && negb (power s)
  then
    mac <- mac_address ;;
    when (PyStr.truthy mac)
      (error_count <- power_on_loop open_ n 0 ;;
       when (error_count =? 6)%nat
         (log Error "Unable to power on the TV, check network connectivity"))
  else if negb value && power s
  then
    control "KEY_POWEROFF" "Click" ;;
    emit (Wait OnPower 1%Q) ;;
    s <- get ;;
    when (negb (power_event s))
      (log Info
         "unable to power off TV using command KEY_POWEROFF. Trying command KEY_POWER" ;;
       control "KEY_POWER" "Click" ;;
       emit (Wait OnPower 1%Q)) ;;
    s <- get ;;
    when (negb (power_event s)) (log Error "Unable to power off the TV")
  else ret tt.

Fixpoint control (fuel : nat) (key cmd : string) : M unit :=
  match fuel with
  | O => out_of_fuel
  | S f => control_body (power_setter f true) (open f) key cmd
  end
with power_setter (fuel : nat) (value : bool) : M unit :=
  match fuel with
  | O => out_of_fuel
  | S f => power_setter_body (open f) (control f) f value
  end.

(** [RemoteWebsocket(config)] in a world: the token file as found (created
    empty when missing), the scripts of the connections to come, the answer
    of the address lookup. *)
Definition init (host_ : string) (port_ : Z) (name_ : string)
  (token_file_ : option string) (connection_ : bool)
  (net_ : list script) (arp_ : option string) (tv_off_ : list string)
  : remote :=
  mkRemote host_ port_ name_
    (match token_file_ with Some t => t | None => EmptyString end)
    false false [] None None false connection_
    [] 0 net_ 0 [] false arp_ tv_off_ [].

(* ================================================================== *)
(** * [Mouse] *)

(** An element of [_commands]: a serialized command (kept as the JSON
    value that [json.dumps] prints) or a number. *)
Inductive queued : Type :=
| Payload (p : json)
| Number (q : Q).

Record mouse : Type := mkMouse {
  is_running : bool;
  commands : list queued;
  ime_start_event : nat;
  ime_update_event : nat;
  touch_enable_event : nat;
  send_event : nat
}.

Definition set_is_running (v : bool) (m : mouse) : mouse :=
  mkMouse v (commands m) (ime_start_event m) (ime_update_event m)
    (touch_enable_event m) (send_event m).

Definition set_commands (v : list queued) (m : mouse) : mouse :=
  mkMouse (is_running m) v (ime_start_event m) (ime_update_event m)
    (touch_enable_event m) (send_event m).

Module Mouse.

(** [Mouse(remote)] *)
Definition init : M mouse :=
  e1 <- new_id ;;
  e2 <- new_id ;;
  e3 <- new_id ;;
  e4 <- new_id ;;
  ret (mkMouse false [] e1 e2 e3 e4).

Definition clear (m : mouse) : mouse :=
  if negb (is_running m) then set_commands [] m else m.

Definition _send (cmd : string) (kwargs : list (string * json)) (m : mouse)
  : M mouse :=
  s <- get ;;
  if negb (connection s) then raise ConnectionClosed
  else if negb (is_running m)
  then
    let params :=
      [("Cmd", JStr cmd); ("TypeOfRemote", JStr "ProcessMouseDevice")]
        ++ kwargs in
    let payload :=
      JObj [("method", JStr "ms.remote.control"); ("params", JObj params)] in
    ret (set_commands (commands m ++ [Payload payload]) m)
  else ret m.

Definition left_click (m : mouse) : M mouse := _send "LeftClick" [] m.

Definition right_click (m : mouse) : M mouse := _send "RightClick" [] m.

(** [move(x, y)]; [now] is [str(time.time())]. *)
Definition move (now : string) (x y : json) (m : mouse) : M mouse :=
  let position := JObj [("x", x); ("y", y); ("Time", JStr now)] in
  _send "Move" [("Position", position)] m.

Definition add_wait (wait : Q) (m : mouse) : mouse :=
  if is_running m then set_commands (commands m ++ [Number wait]) m else m.

Definition stop (m : mouse) : M unit :=
  when (is_running m)
    (event_set (send_event m) ;;
     event_set (ime_start_event m) ;;
     event_set (ime_update_event m) ;;
     event_set (touch_enable_event m)).

(** The [for] of [run()].  [stop_at = Some i] is a call of [stop()] from
    another thread while element [i] is being handled.  The result tells
    whether the loop left through its [return]. *)
Fixpoint run_commands (stop_at : option nat) (i : nat) (m : mouse)
  (l : list queued) : M bool :=
  match l with
  | [] => ret false
  | payload :: rest =>
      when (match stop_at with Some k => Nat.eqb k i | None => false end)
           (stop m) ;;
      match payload with
      | Number d =>
          emit (Wait (OnEvent (send_event m)) d) ;;
          s <- get ;;
          if event_is_set (send_event m) s then ret true
          else run_commands stop_at (S i) m rest
      | Payload p =>
          log Info "Sending mouse control command: " ;;
          s <- get ;;
          match sock s with
          | Some c => emit (Send c p)
          | None => raise AttributeError
          end ;;
          run_commands stop_at (S i) m rest
      end
  end.

Definition len (l : list queued) : Q := inject_Z (Z.of_nat (List.length l)).

Definition run (stop_at : option nat) (m : mouse) : M mouse :=
  s <- get ;;
  if negb (power s) then log Error "Is the TV on??" ;; ret m
  else if negb (is_running m)
  then
    event_clear (send_event m) ;;
    event_clear (ime_start_event m) ;;
    event_clear (ime_update_event m) ;;
    event_clear (touch_enable_event m) ;;
    let m := set_is_running true m in
    (* the three closures of this call *)
    r <- new_id ;;
    register_receive_callback
      (ImeStart r (ime_start_event m)) "event" (Some "ms.remote.imeStart") ;;
    register_receive_callback
      (ImeUpdate r (ime_update_event m)) "event" (Some "ms.remote.imeUpdate") ;;
    register_receive_callback
      (TouchEnable r (touch_enable_event m)) "event"
      (Some "ms.remote.touchEnable") ;;
    returned <- run_commands stop_at 0 m (commands m) ;;
    if (returned : bool) then ret (set_is_running false m)
    else
      emit (Wait (OnEvent (ime_start_event m)) (len (commands m))) ;;
      emit (Wait (OnEvent (ime_update_event m)) (len (commands m))) ;;
      emit (Wait (OnEvent (touch_enable_event m)) (len (commands m))) ;;
      ret (set_is_running false m)
  else ret m.

End Mouse.

(* ================================================================== *)
(** * Vocabulary of the statements *)

(** [wp m Q s]: running [m] from [s] ends in a result and a state that
    satisfy [Q]. *)
Definition wp {A} (m : M A) (Q : res A -> remote -> Prop) (s : remote) : Prop :=
  Q (fst (m s)) (snd (m s)).

Definition is_log (a : action) : bool :=
  match a with Log _ _ => true | _ => false end.




(** The three registrations of the run with closure identity [r]. *)
Definition readiness_callbacks (r : nat) (m : mouse) : list entry :=
  [(ImeStart r (ime_start_event m), "event", Some "ms.remote.imeStart");
   (ImeUpdate r (ime_update_event m), "event", Some "ms.remote.imeUpdate");
   (TouchEnable r (touch_enable_event m), "event",
    Some "ms.remote.touchEnable")].

(** ** Sample worlds *)

Definition connect_frame (token : string) : frame :=
  Recv (MText (JObj [("event", JStr "ms.channel.connect");
                     ("data", JObj [("token", JStr token)])])).

Definition unauthorized_frame : frame :=
  Recv (MText (JObj [("event", JStr "ms.channel.unauthorized")])).

(** A television that grants access, and the session after [open()]. *)
Definition friendly_tv : remote :=
  init "10.0.0.5" 8001 "samsungctl" None true
    [Accept [connect_frame "def"]] None [].

Definition live : remote := Eval vm_compute in snd (open 3 friendly_tv).


(** The value and the state of a computation that returns. *)
Definition returned {A} (default : A) (x : res A * remote) : A * remote :=
  match x with
  | (Val a, s) => (a, s)
  | (_, s) => (default, s)
  end.

(** [remote.mouse] on the live session: a new, empty batch, and the
    session after its creation. *)
Definition new_batch : mouse * remote :=
  Eval vm_compute in returned (mkMouse false [] 0 0 0 0) (Mouse.init live).

Definition empty_batch : mouse := fst new_batch.
Definition studio : remote := snd new_batch.

(** The batch after [left_click()], and the same batch in the middle of a
    run. *)
Definition idle : mouse :=
  Eval vm_compute in
    fst (returned empty_batch (Mouse.left_click empty_batch studio)).

Definition busy : mouse := set_is_running true idle.

(** Two batches were created and run on the live session, and the
    television has not answered: the readiness callbacks of both runs are
    registered. *)
Definition after_two_runs : remote :=
  Eval vm_compute in
    (let s1 := snd (Mouse.run None empty_batch studio) in
     let '(m2, s2) := returned empty_batch (Mouse.init s1) in
     snd (Mouse.run None m2 s2)).

(** The receive thread of that session, about to read two frames. *)
Definition two_frames (fields : list (string * json)) : remote :=
  set_parked false
    (set_inbox [Recv (MText (JObj fields)); Recv (MText (JObj fields))]
       after_two_runs).

Definition ime_start : list (string * json) :=
  [("event", JStr "ms.remote.imeStart")].

(** The lines of a token file that belong to [host]. *)
Definition entries_for (host_ : string) (file : string) : list string :=
  filter (fun l => PyStr.startswith l (host_ ++ ":")%string)
         (PyStr.split PyStr.nl file).

Definition two_hosts : string :=
  ("10.0.0.5:abc" ++ PyStr.NL ++ "10.0.0.9:xyz" ++ PyStr.NL)%string.

(** The television grants access to 10.0.0.5 and issues the token
    [def]; the token file holds a token for it and one for 10.0.0.9. *)
Definition rotating_tv : remote :=
  init "10.0.0.5" 8001 "samsungctl" (Some two_hosts) true
    [Accept [connect_frame "def"]] None [].

(** The television refuses access on the secure port. *)
Definition denying_tv : remote :=
  init "10.0.0.5" 8002 "samsungctl" None true
    [Accept [unauthorized_frame]] None [].

(** The television refuses access on the plain port and would grant it
    on the secure one. *)
Definition upgrading_tv : remote :=
  init "10.0.0.5" 8001 "samsungctl" None true
    [Accept [unauthorized_frame]; Accept [connect_frame "def"]] None [].

(** The television accepts the connection and stays silent. *)
Definition silent_tv : remote :=
  init "10.0.0.5" 8001 "samsungctl" None true [Accept []] None [].

(** Nothing answers, and the address lookup finds nothing. *)
Definition unreachable_tv : remote :=
  init "10.0.0.5" 8001 "samsungctl" None true [] None [].


(** The hardware address that [self.mac_address] will give. *)
Definition wake_address (s : remote) : string :=
  match mac_address_ s with
  | Some m => m
  | None => match arp s with Some a => a | None => EmptyString end
  end.

Definition is_wol (a : action) : bool :=
  match a with Wol _ => true | _ => false end.

Definition is_connect (a : action) : bool :=
  match a with Connect _ => true | _ => false end.

(** The same two tokens, the one of 10.0.0.5 last and without a final
    newline. *)
Definition two_hosts_unterminated : string :=
  ("10.0.0.9:xyz" ++ PyStr.NL ++ "10.0.0.5:abc")%string.

Definition rotating_tv_unterminated : remote :=
  init "10.0.0.5" 8001 "samsungctl" (Some two_hosts_unterminated) true
    [Accept [connect_frame "def"]] None [].

(** ** Registry vocabulary *)

(** The callbacks that do nothing but set an event. *)
Definition plain (h : handler) : bool :=
  match h with
  | AuthCallback _ _ | UnauthorizedCallback _ _ => false
  | ImeStart _ _ | ImeUpdate _ _ | TouchEnable _ _ | VoiceCallback _ => true
  end.

Definition plain_entry (e : entry) : bool := plain (fst (fst e)).

(** The event that a callback sets. *)
Definition event_of (h : handler) : nat :=
  match h with
  | AuthCallback ev _ | UnauthorizedCallback ev _ => ev
  | ImeStart _ ev | ImeUpdate _ ev | TouchEnable _ ev => ev
  | VoiceCallback ev => ev
  end.

(** The predicate of an entry holds of [response]. *)
Definition hit (response : json) (e : entry) : bool :=
  match matches (snd (fst e)) (snd e) response with
  | Val true => true
  | _ => false
  end.

(** The entries whose handlers were invoked in a piece of trace, oldest
    first. *)
Definition fired (t : list action) : list entry :=
  flat_map (fun a => match a with Fire e _ => [e] | _ => [] end) t.

(** Number of occurrences of an entry in a list of entries. *)
Definition count (e : entry) (l : list entry) : nat :=
  List.length (filter (entry_eqb e) l).

Definition handler_of (e : entry) : handler := fst (fst e).

(** The state that the end of [loop()] leaves. *)
Definition torn (s : remote) : Prop :=
  parked s = false /\ sock s = None /\ power_event s = true /\
  registered_callbacks s = [] /\ loop_event s = false.

(** ** Session vocabulary *)

Definition is_error_log (a : action) : bool :=
  match a with Log Error _ => true | _ => false end.

Definition is_fire (a : action) : bool :=
  match a with Fire _ _ => true | _ => false end.

(** Actions that are neither a wake signal nor an error line. *)
Definition quiet (a : action) : bool := negb (is_wol a) && negb (is_error_log a).

(** Quiet actions that are not a callback invocation either. *)
Definition calm (a : action) : bool := quiet a && negb (is_fire a).

(** The session is down and no receive thread is left. *)
Definition down (s : remote) : Prop :=
  sock s = None /\ parked s = false /\ loop_event s = false.

(** Object identities in use are below the next fresh one. *)
Definition fresh (s : remote) : Prop :=
  (forall e, In e (events s) -> e < next_id s) /\
  (forall x, In x (registered_callbacks s) ->
             event_of (handler_of x) < next_id s).

(** The two callbacks of the handshake whose event is [ev]. *)
Definition auth_pair (ev : nat) (x : entry) : bool :=
  match handler_of x with
  | AuthCallback e _ | UnauthorizedCallback e _ => Nat.eqb e ev
  | _ => false
  end.



(** What a callback invoked inside the receive thread leaves: it sets at
    most its own event, only shrinks the registry and invokes no other
    callback; when it returns it either left the session as it was or left
    it torn down. *)
Definition call_post (h : handler) (s : remote) (r : res unit) (s' : remote)
  : Prop :=
  parked s' = false /\
  (exists t, trace s' = trace s ++ t /\ forallb calm t = true) /\
  (forall x, count x (registered_callbacks s')
             <= count x (registered_callbacks s)) /\
  (forall e, event_is_set e s' = true ->
             event_is_set e s = true \/ e = event_of h) /\
  match r with
  | Val _ =>
      (sock s' = sock s /\ loop_event s' = loop_event s /\
       inbox s' = inbox s /\
       (power_event s = true -> power_event s' = true) /\
       (plain h = false -> power_event s' = true))
      \/ (sock s' = None /\ power_event s' = true /\
          registered_callbacks s' = [])
  | Exc _ => True
  | Fuel => False
  end.


(** What the invocation of one matching entry [x] and its removal leave. *)
Definition fire_post (x : entry) (response : json) (s : remote)
  (r : res unit) (s' : remote) : Prop :=
  parked s' = false /\
  (exists t, trace s' = trace s ++ Fire x response :: t /\
             forallb calm t = true) /\
  (forall e, event_is_set e s' = true ->
             event_is_set e s = true \/ e = event_of (handler_of x)) /\
  (forall e, count e (registered_callbacks s')
             <= count e (registered_callbacks s)) /\
  match r with
  | Val _ =>
      sock s' = sock s /\ loop_event s' = loop_event s /\
      inbox s' = inbox s /\
      (forall e, count e (registered_callbacks s')
                 + (if entry_eqb e x then 1 else 0)
                 <= count e (registered_callbacks s)) /\
      (power_event s = true -> power_event s' = true) /\
      (plain_entry x = false -> power_event s' = true)
  | Exc _ => True
  | Fuel => False
  end.

(** What the [for] of [on_message] over the copy [rest] leaves. *)
Definition dispatch_post (rest : list entry) (s : remote)
  (r : res unit) (s' : remote) : Prop :=
  parked s' = false /\
  exists t,
    trace s' = trace s ++ t /\
    forallb quiet t = true /\
    (forall e, count e (fired t) <= count e rest) /\
    (forall e, event_is_set e s' = true ->
               event_is_set e s = true \/
               exists x, In x (fired t) /\ event_of (handler_of x) = e) /\
    match r with
    | Val _ =>
        sock s' = sock s /\ loop_event s' = loop_event s /\
        inbox s' = inbox s /\
        (forall e, count e (fired t) + count e (registered_callbacks s')
                   <= count e (registered_callbacks s)) /\
        (power_event s = true -> power_event s' = true) /\
        ((exists x, In x (fired t) /\ plain_entry x = false) ->
         power_event s' = true)
    | Exc _ => True
    | Fuel => False
    end.

(** What a run of the receive loop leaves: it ends blocked in [recv]
    with the session as it was, or torn down; every invocation of an
    entry consumed one registration; an event that is set now was set
    before or is the event of an invoked callback. *)
Definition loop_post (s : remote) (r : res unit) (s' : remote) : Prop :=
  r = Val tt /\
  exists t,
    trace s' = trace s ++ t /\
    forallb quiet t = true /\
    (forall e, count e (fired t) + count e (registered_callbacks s')
               <= count e (registered_callbacks s)) /\
    (forall e, event_is_set e s' = true ->
               event_is_set e s = true \/
               exists x, In x (fired t) /\ event_of (handler_of x) = e) /\
    (power_event s = true -> power_event s' = true) /\
    ((exists x, In x (fired t) /\ plain_entry x = false) ->
     power_event s' = true) /\
    ((parked s' = true /\ sock s' = sock s /\ sock s' <> None /\
      loop_event s' = false /\ inbox s' = [])
     \/ torn s').

(** No callback is running: the receive thread, if there is one, is
    blocked in [recv]. *)
Definition at_rest (s : remote) : Prop :=
  loop_event s = false /\ parked s = power s.

(** What the connection and the handshake leave when they start with the
    session down.  A refused connection raises and leaves the session
    down; an accepted one ends with the power event set, and either
    returns after one of the two callbacks of this handshake was invoked,
    or raises the failure of the wait with the session down. *)
Definition handshake_post (s : remote) (r : res unit) (s' : remote) : Prop :=
  exists t,
    trace s' = trace s ++ t /\
    forallb quiet t = true /\
    match net s with
    | Accept _ :: _ =>
        In (Wait (OnEvent (next_id s)) 30%Q) t /\
        power_event s' = true /\
        ((r = Val tt /\ running s' = true /\
          exists x, In x (fired t) /\ auth_pair (next_id s) x = true)
         \/ (r = Exc (RuntimeError "Auth Failure") /\ sock s' = None))
    | _ =>
        r = Exc (RuntimeError "Unable to connect to the TV") /\
        down s' /\ fresh s' /\ power_event s' = power_event s /\
        mac_address_ s' = mac_address_ s /\ arp s' = arp s /\
        net s' = tl (net s)
    end.

(** What [open()] leaves when no callback is running. *)
Definition open_post (s : remote) (r : res unit) (s' : remote) : Prop :=
  exists t,
    trace s' = trace s ++ t /\
    forallb quiet t = true /\
    match net s with
    | Accept _ :: _ =>
        In (Wait (OnEvent (next_id s)) 30%Q) t /\
        power_event s' = true /\
        ((r = Val tt /\ running s' = true /\
          exists x, In x (fired t) /\ auth_pair (next_id s) x = true)
         \/ (r = Exc (RuntimeError "Auth Failure") /\ sock s' = None))
    | _ =>
        r = Exc (RuntimeError "Unable to connect to the TV") /\
        down s' /\ fresh s' /\
        (sock s = None -> power_event s' = power_event s) /\
        mac_address_ s' = mac_address_ s /\ arp s' = arp s /\
        net s' = tl (net s)
    end.

(** Fuel that [open()] needs against the next script. *)
Definition open_fuel (scripts : list script) : nat :=
  match scripts with
  | Accept frames :: _ => List.length frames + 3
  | _ => 1
  end.




(** The order in which the [for] of [on_message] over the copy [rest]
    invokes callbacks: the matching entries in the order of the copy, all
    of them when it returns. *)
Definition order_post (response : json) (rest : list entry) (s : remote)
  (r : res unit) (s' : remote) : Prop :=
  exists t,
    trace s' = trace s ++ t /\
    (exists k, fired t = firstn k (filter (hit response) rest)) /\
    (fired t = [] -> registered_callbacks s' = registered_callbacks s) /\
    (r = Val tt -> fired t = filter (hit response) rest).

(* ================================================================== *)
(** * Rules for [wp] *)

(** Projections of updated states. *)
Ltac rsimpl :=
  cbn [host port name token_file loop_event power_event registered_callbacks
       mac_address_ sock running connection events next_id net next_conn
       inbox parked arp tv_off trace
       set_port set_token_file set_loop_event set_power_event
       set_registered_callbacks set_mac_address_ set_sock set_running
       set_events set_next_id set_net set_next_conn set_inbox set_parked
       set_trace] in *.


Lemma wp_run {A} (m : M A) Q s : wp m Q s -> forall r s', m s = (r, s') -> Q r s'.
Proof. unfold wp. intros H r s' E. rewrite E in H. exact H. Qed.

Lemma wp_ret {A} (a : A) (Q : res A -> remote -> Prop) s : Q (Val a) s -> wp (ret a) Q s.
Proof. exact (fun H => H). Qed.

Lemma wp_bind {A B} (m : M A) (k : A -> M B) (Q : res B -> remote -> Prop) s :
  wp m (fun r s' =>
          match r with
          | Val a => wp (k a) Q s'
          | Exc e => Q (Exc e) s'
          | Fuel => Q Fuel s'
          end) s ->
  wp (bind m k) Q s.
Proof.
  unfold wp, bind. destruct (m s) as [[a|e|] s']; simpl; auto.
Qed.

Lemma wp_conseq {A} (m : M A) (Q Q' : res A -> remote -> Prop) s :
  wp m Q s -> (forall r s', Q r s' -> Q' r s') -> wp m Q' s.
Proof. unfold wp. auto. Qed.

Lemma wp_get (Q : res remote -> remote -> Prop) s : Q (Val s) s -> wp get Q s.
Proof. exact (fun H => H). Qed.

Lemma wp_modify f (Q : res unit -> remote -> Prop) s :
  Q (Val tt) (f s) -> wp (modify f) Q s.
Proof. exact (fun H => H). Qed.

Lemma wp_raise {A} e (Q : res A -> remote -> Prop) s :
  Q (Exc e) s -> wp (raise e) Q s.
Proof. exact (fun H => H). Qed.

Lemma wp_lift {A} (r : res A) (Q : res A -> remote -> Prop) s :
  Q r s -> wp (lift r) Q s.
Proof. exact (fun H => H). Qed.

Lemma wp_emit a (Q : res unit -> remote -> Prop) s :
  Q (Val tt) (set_trace (trace s ++ [a]) s) -> wp (emit a) Q s.
Proof. exact (fun H => H). Qed.

Lemma wp_when (b : bool) m (Q : res unit -> remote -> Prop) s :
  (b = true -> wp m Q s) -> (b = false -> Q (Val tt) s) -> wp (when b m) Q s.
Proof.
  intros H1 H2. destruct b; simpl; [apply H1 | apply H2]; reflexivity.
Qed.

Lemma wp_try_except m h (Q : res unit -> remote -> Prop) s :
  wp m (fun r s' =>
          match r with
          | Exc _ => wp h Q s'
          | _ => Q r s'
          end) s ->
  wp (try_except m h) Q s.
Proof.
  unfold wp, try_except. destruct (m s) as [[a|e|] s']; simpl; auto.
Qed.

(* ================================================================== *)
(** * The pointer batch *)

Module MouseFacts.

(** While a run is active, [clear()] leaves the queue as it is. *)
Lemma clear_running m : is_running m = true -> Mouse.clear m = m.
Proof. unfold Mouse.clear. intros ->. reflexivity. Qed.

(** While a run is active, [_send] never touches the queue: it raises
    when the connection is gone and ignores the command otherwise. *)
Lemma _send_running cmd kwargs m s :
  is_running m = true ->
  Mouse._send cmd kwargs m s
  = (if connection s then Val m else Exc ConnectionClosed, s).
Proof.
  intros Hr. unfold Mouse._send, bind, get, raise, ret.
  destruct (connection s); simpl; [rewrite Hr|]; reflexivity.
Qed.

(** An idle batch ignores [add_wait]. *)
Lemma add_wait_idle w m : is_running m = false -> Mouse.add_wait w m = m.
Proof. unfold Mouse.add_wait. intros ->. reflexivity. Qed.

Lemma add_wait_running w m :
  is_running m = true ->
  commands (Mouse.add_wait w m) = commands m ++ [Number w].
Proof. unfold Mouse.add_wait. intros ->. reflexivity. Qed.

(** C5, as the code behaves: on a batch whose run is active,
    [add_wait(2)] is not rejected; the number 2 is appended to the queue
    ([add_wait] tests [if self._is_running] where [clear] and [_send]
    test [if not self.is_running]). *)
Theorem add_wait_mutates_running_batch :
  is_running busy = true /\
  Mouse.clear busy = busy /\
  commands (Mouse.add_wait 2 busy) = commands busy ++ [Number 2] /\
  commands (Mouse.add_wait 2 busy) <> commands busy.
Proof.
  repeat split; try reflexivity.
  simpl. discriminate.
Qed.





Lemma idle_again m :
  is_running m = false -> set_is_running false (set_is_running true m) = m.
Proof. destruct m; simpl; intros ->; reflexivity. Qed.




Lemma existsb_filter_out e l :
  existsb (Nat.eqb e) (filter (fun x => negb (Nat.eqb e x)) l) = false.
Proof.
  induction l as [|x l IH]; simpl; auto.
  destruct (Nat.eqb e x) eqn:E; simpl; auto. rewrite E. exact IH.
Qed.

Lemma existsb_filter_keep e (g : nat -> bool) l :
  existsb (Nat.eqb e) l = false -> existsb (Nat.eqb e) (filter g l) = false.
Proof.
  induction l as [|x l IH]; simpl; auto.
  intros H. apply orb_false_iff in H as [H1 H2].
  destruct (g x); simpl; auto. rewrite H1. auto.
Qed.

(** C10: on a live session, the run of an idle batch with an empty
    queue registers the three readiness callbacks, writes nothing,
    waits on each of the three readiness events with bound 0 (the
    length of the queue) and returns with the batch idle; none of the
    three events is set when it returns. *)
Theorem run_empty_queue stop_at m s :
  power s = true ->
  is_running m = false ->
  commands m = [] ->
  exists s',
    Mouse.run stop_at m s = (Val m, s') /\
    is_running m = false /\
    registered_callbacks s'
    = registered_callbacks s ++ readiness_callbacks (next_id s) m /\
    trace s' = trace s ++
      [Wait (OnEvent (ime_start_event m)) 0%Q;
       Wait (OnEvent (ime_update_event m)) 0%Q;
       Wait (OnEvent (touch_enable_event m)) 0%Q] /\
    event_is_set (ime_start_event m) s' = false /\
    event_is_set (ime_update_event m) s' = false /\
    event_is_set (touch_enable_event m) s' = false.
Proof.
  intros Hp Hidle Hq.
  unfold Mouse.run, bind at 1, get. rewrite Hp, Hidle. simpl negb. cbv iota.
  unfold bind, event_clear, modify, new_id, register_receive_callback.
  simpl. rewrite Hq. simpl. unfold emit, modify, ret. simpl.
  rewrite idle_again by assumption.
  eexists. split; [reflexivity|]. simpl.
  unfold event_is_set. simpl.
  rewrite <- !app_assoc.
  split; [reflexivity|]. split; [reflexivity|]. split; [reflexivity|].
  split; [|split].
  - apply existsb_filter_keep, existsb_filter_keep, existsb_filter_out.
  - apply existsb_filter_keep, existsb_filter_out.
  - apply existsb_filter_out.
Qed.

Lemma run_empty_queue_witness :
  exists s',
    Mouse.run None empty_batch studio = (Val empty_batch, s') /\
    is_running empty_batch = false /\
    registered_callbacks s'
    = registered_callbacks studio
      ++ readiness_callbacks (next_id studio) empty_batch /\
    trace s' = trace studio ++
      [Wait (OnEvent (ime_start_event empty_batch)) 0%Q;
       Wait (OnEvent (ime_update_event empty_batch)) 0%Q;
       Wait (OnEvent (touch_enable_event empty_batch)) 0%Q] /\
    event_is_set (ime_start_event empty_batch) s' = false /\
    event_is_set (ime_update_event empty_batch) s' = false /\
    event_is_set (touch_enable_event empty_batch) s' = false.
Proof. apply (run_empty_queue None empty_batch studio); reflexivity. Defined.

End MouseFacts.

(* ================================================================== *)
(** * The handshake on sample worlds *)

Module HandshakeFacts.

(** C1, as the code behaves: the token file holds a token for
    10.0.0.5 and one for 10.0.0.9; [open()] succeeds and the
    television issues the token [def].  Afterwards the file holds two
    entries for 10.0.0.5, the old one and the new one (and an empty
    line): [auth_callback] tests [line], the leftover variable of the
    first loop of [open()], where it means [lne]. *)
Theorem rotation_keeps_old_token :
  exists s',
    open 3 rotating_tv = (Val tt, s') /\
    token_file s'
    = ("10.0.0.9:xyz" ++ PyStr.NL ++ "10.0.0.5:abc" ++ PyStr.NL ++ PyStr.NL
       ++ "10.0.0.5:def" ++ PyStr.NL)%string /\
    entries_for "10.0.0.5" (token_file s') = ["10.0.0.5:abc"; "10.0.0.5:def"] /\
    entries_for "10.0.0.9" (token_file s') = ["10.0.0.9:xyz"].
Proof.
  eexists. split; [vm_compute; reflexivity|].
  repeat split.
Qed.

(** When the file does not end in a newline and its last line belongs
    to this host, [line] does start with the host, for every [lne]: the
    loop then removes every line, those of the other hosts too. *)
Lemma rotation_drops_other_hosts :
  exists s',
    open 3 rotating_tv_unterminated = (Val tt, s') /\
    token_file s' = ("10.0.0.5:def" ++ PyStr.NL)%string /\
    entries_for "10.0.0.9" (token_file s') = [].
Proof.
  eexists. split; [vm_compute; reflexivity|].
  repeat split.
Qed.

(** C3, as the code behaves: on the secure variant the television
    answers "unauthorized"; the socket is closed, but [open()] returns
    normally and marks the session as running: the [RuntimeError] of
    [unauthorized_callback] is raised in the receive thread, where the
    bare [except] of [loop()] takes it. *)
Theorem denial_is_not_surfaced :
  exists s',
    open 3 denying_tv = (Val tt, s') /\
    port s' = 8002%Z /\
    In (Close 0) (trace s') /\
    sock s' = None /\
    running s' = true.
Proof.
  eexists. split; [vm_compute; reflexivity|].
  repeat split. simpl. auto 10.
Qed.

(** On the plain variant the callback closes the socket, moves to the
    secure port and calls [open()] again, once.  That second handshake
    cannot succeed: the stop flag set by the close is still up when
    its receive thread starts. *)
Lemma upgrade_retries_once :
  exists s',
    open 4 upgrading_tv = (Val tt, s') /\
    map (fun a => match a with Connect u => url_secure u | _ => false end)
        (filter is_connect (trace s')) = [false; true] /\
    In (Close 0) (trace s') /\
    sock s' = None /\
    running s' = true.
Proof.
  eexists. split; [vm_compute; reflexivity|].
  repeat split. simpl. auto 10.
Qed.

End HandshakeFacts.

(* ================================================================== *)
(** * Power *)

Module PowerFacts.

Lemma mac_address_unknown s :
  PyStr.truthy (wake_address s) = false ->
  exists s', mac_address s = (Val EmptyString, s') /\
    trace s' = trace s /\ sock s' = sock s /\ net s' = net s /\
    power_event s' = power_event s /\
    registered_callbacks s' = registered_callbacks s.
Proof.
  unfold wake_address, mac_address, bind, get.
  destruct (mac_address_ s) as [m|] eqn:E.
  - destruct m; [|discriminate]. intros _. exists s. auto 10.
  - destruct (arp s) as [a|].
    + destruct a; [|discriminate]. intros _. eexists. split; [reflexivity|].
      simpl. auto 10.
    + intros _. eexists. split; [reflexivity|]. simpl. auto 10.
Qed.

(** C7, amended: a power-on request with the session down and no
    wake-capable address known returns normally and does nothing that
    can be observed: no wake signal, no connection attempt, no wait and
    no log line (the trace is unchanged), and the session stays down. *)
Theorem power_on_without_address fuel s :
  sock s = None ->
  PyStr.truthy (wake_address s) = false ->
  exists s',
    power_setter (S fuel) true s = (Val tt, s') /\
    trace s' = trace s /\
    net s' = net s /\
    power s' = false.
Proof.
  intros Hs Hmac.
  change (power_setter (S fuel) true)
    with (power_setter_body (open fuel) (control fuel) fuel true).
  unfold power_setter_body, bind at 1, modify. unfold bind at 1, get.
  assert (Hp : power (set_power_event false s) = false)
    by (unfold power; simpl; rewrite Hs; reflexivity).
  rewrite Hp. cbn [andb negb].
  destruct (mac_address_unknown (set_power_event false s) Hmac)
    as (s' & E & Ht & Hk & Hn & _).
  unfold bind at 1. rewrite E. simpl.
  exists s'. unfold power. rewrite Hk, Ht, Hn. simpl. rewrite Hs. auto.
Qed.

Lemma power_on_without_address_witness :
  exists s',
    power_setter 1 true unreachable_tv = (Val tt, s') /\
    trace s' = trace unreachable_tv /\
    net s' = net unreachable_tv /\
    power s' = false.
Proof. apply (power_on_without_address 0 unreachable_tv); reflexivity. Defined.

(** C7 as stated fails: with no address known the setter writes no log
    line at all. *)
Lemma power_on_without_address_is_silent :
  exists s',
    power_setter 1 true unreachable_tv = (Val tt, s') /\
    trace s' = [] /\
    ~ (exists lvl msg, In (Log lvl msg) (trace s')).
Proof.
  eexists. split; [vm_compute; reflexivity|]. split; [reflexivity|].
  intros (lvl & msg & H). exact H.
Qed.

End PowerFacts.

(* ================================================================== *)
(** * The callback registry *)

Module RegistryFacts.

Lemma handler_eqb_eq a b : handler_eqb a b = true <-> a = b.
Proof.
  destruct a, b; simpl; split; intros H; try discriminate;
    try (apply andb_true_iff in H as [H1 H2];
         first [apply String.eqb_eq in H2 | apply Nat.eqb_eq in H2];
         apply Nat.eqb_eq in H1; congruence);
    try (apply Nat.eqb_eq in H; congruence);
    try (inversion H; subst; rewrite ?Nat.eqb_refl, ?String.eqb_refl; reflexivity).
Qed.

Lemma data_eqb_eq a b : data_eqb a b = true <-> a = b.
Proof.
  destruct a, b; simpl; split; intros H; try discriminate; auto.
  - apply String.eqb_eq in H. congruence.
  - inversion H. apply String.eqb_refl.
Qed.

Lemma entry_eqb_eq a b : entry_eqb a b = true <-> a = b.
Proof.
  destruct a as [[h k] d], b as [[h' k'] d']. simpl. split.
  - intros H. apply andb_true_iff in H as [H H3].
    apply andb_true_iff in H as [H1 H2].
    apply handler_eqb_eq in H1. apply String.eqb_eq in H2.
    apply data_eqb_eq in H3. congruence.
  - intros H. inversion H. subst.
    rewrite (proj2 (handler_eqb_eq h' h') eq_refl), String.eqb_refl,
      (proj2 (data_eqb_eq d' d') eq_refl). reflexivity.
Qed.

Lemma entry_eqb_refl a : entry_eqb a a = true.
Proof. apply entry_eqb_eq. reflexivity. Qed.

Lemma entry_eqb_sym a b : entry_eqb a b = entry_eqb b a.
Proof.
  destruct (entry_eqb a b) eqn:E.
  - apply entry_eqb_eq in E. subst. symmetry. apply entry_eqb_refl.
  - destruct (entry_eqb b a) eqn:E'; auto.
    apply entry_eqb_eq in E'. subst. rewrite entry_eqb_refl in E. discriminate.
Qed.

(** On a decoded object the predicate of an entry never raises. *)
Lemma matches_object key data fields :
  matches key data (JObj fields) = Val (hit (JObj fields) (ImeStart 0 0, key, data)).
Proof.
  unfold hit, matches. simpl.
  destruct (Py.lookup key fields) as [v|]; [|reflexivity].
  destruct data as [d|]; [|reflexivity].
  destruct (Py.eq_str v d); reflexivity.
Qed.

Lemma hit_handler response h h' key data :
  hit response (h, key, data) = hit response (h', key, data).
Proof. reflexivity. Qed.

Lemma list_remove_skip (e : entry) pre rest :
  (forall x, In x pre -> entry_eqb x e = false) ->
  list_remove entry_eqb e (pre ++ e :: rest) = Some (pre ++ rest).
Proof.
  induction pre as [|x pre IH]; intros H; simpl.
  - rewrite entry_eqb_refl. reflexivity.
  - rewrite (H x (or_introl eq_refl)).
    rewrite IH; [reflexivity|]. intros y Hy. apply H. right. exact Hy.
Qed.

Lemma fired_app t u : fired (t ++ u) = fired t ++ fired u.
Proof. apply flat_map_app. Qed.

Lemma call_plain open_rec h response s :
  plain h = true ->
  call open_rec h response s = (Val tt, set_events (event_of h :: events s) s).
Proof. destruct h; simpl; intros H; try discriminate; reflexivity. Qed.

(** The [for] of [on_message] over callbacks that only set an event:
    every entry of the copy that matches is invoked, in order, and
    removed; the others stay. *)
Lemma dispatch_plain open_rec fields : forall rest pre s,
  registered_callbacks s = pre ++ rest ->
  forallb plain_entry rest = true ->
  (forall x, In x pre -> hit (JObj fields) x = false) ->
  exists s' t,
    dispatch open_rec (JObj fields) rest s = (Val tt, s') /\
    registered_callbacks s'
    = pre ++ filter (fun e => negb (hit (JObj fields) e)) rest /\
    trace s' = trace s ++ t /\
    t = map (fun e => Fire e (JObj fields)) (filter (hit (JObj fields)) rest) /\
    sock s' = sock s /\ loop_event s' = loop_event s /\
    parked s' = parked s /\ inbox s' = inbox s.
Proof.
  induction rest as [|[[h key] data] rest IH]; intros pre s Hreg Hplain Hpre.
  - exists s, []. simpl. rewrite !app_nil_r. rewrite app_nil_r in Hreg.
    repeat split; auto.
  - simpl in Hplain. apply andb_true_iff in Hplain as [Hh Hplain].
    unfold plain_entry in Hh. simpl in Hh.
    simpl dispatch. unfold bind at 1, lift.
    rewrite matches_object.
    rewrite (hit_handler _ (ImeStart 0 0) h).
    simpl filter.
    destruct (hit (JObj fields) (h, key, data)) eqn:Hhit; simpl negb; cbv iota.
    + unfold when, bind at 1. unfold bind at 1, emit, modify.
      unfold bind at 1. rewrite (call_plain _ _ _ _ Hh).
      unfold bind at 1, get. rsimpl. rewrite Hreg.
      rewrite list_remove_skip.
      2:{ intros x Hx. destruct (entry_eqb x (h, key, data)) eqn:E; auto.
          apply entry_eqb_eq in E. subst. rewrite (Hpre _ Hx) in Hhit.
          discriminate. }
      unfold modify.
      match goal with
      | |- context [dispatch open_rec (JObj fields) rest ?s2] =>
          destruct (IH pre s2) as (s' & t & E & H1 & H2 & H3 & H4 & H5 & H6 & H7);
            [reflexivity | exact Hplain | exact Hpre |]
      end.
      rewrite E. exists s', (Fire (h, key, data) (JObj fields) :: t).
      simpl in H2, H4, H5, H6, H7. rewrite <- app_assoc in H2. simpl in H2.
      subst t. repeat split; auto.
    + unfold when, bind at 1, ret.
      destruct (IH (pre ++ [(h, key, data)]) s)
        as (s' & t & E & H1 & H2 & H3 & H4 & H5 & H6 & H7).
      * rewrite Hreg, <- app_assoc. reflexivity.
      * exact Hplain.
      * intros x Hx. apply in_app_iff in Hx as [Hx|[Hx|[]]]; [auto|].
        subst. exact Hhit.
      * rewrite E. exists s', t. rewrite <- app_assoc in H1. simpl in H1.
        repeat split; auto.
Qed.

(** On a registry of callbacks that only set their event, the dispatch
    of a decoded object returns, has invoked the handler of every entry
    whose predicate matches, in registration order, and has removed
    exactly those entries. *)
Lemma dispatch_plain_exact open_rec fields s :
  forallb plain_entry (registered_callbacks s) = true ->
  exists s' t,
    on_message open_rec (MText (JObj fields)) s = (Val tt, s') /\
    trace s' = trace s ++ t /\
    fired t = filter (hit (JObj fields)) (registered_callbacks s) /\
    registered_callbacks s'
    = filter (fun e => negb (hit (JObj fields) e)) (registered_callbacks s) /\
    (filter (hit (JObj fields)) (registered_callbacks s) = [] ->
     fired t = [] /\ registered_callbacks s' = registered_callbacks s).
Proof.
  intros Hplain.
  unfold on_message, bind at 1, ret. unfold bind at 1, log, emit, modify.
  unfold bind at 1, get.
  match goal with
  | |- context [dispatch open_rec (JObj fields) ?l ?s2] =>
      destruct (dispatch_plain open_rec fields l [] s2)
        as (s' & t & E & H1 & H2 & H3 & _);
        [reflexivity | exact Hplain | intros x [] |]
  end.
  rewrite E. simpl in H1, H2.
  exists s', (Log Debug "incoming message: " :: t).
  rewrite H2, <- app_assoc. simpl.
  assert (Hf : fired t = filter (hit (JObj fields)) (registered_callbacks s)).
  { subst t. clear. induction (filter _ _); simpl; congruence. }
  repeat split; auto.
  - rewrite Hf. assumption.
  - rewrite H1. clear - H.
    induction (registered_callbacks s) as [|x l IH]; simpl in *; auto.
    destruct (hit (JObj fields) x); simpl in *; [discriminate|].
    f_equal. auto.
Qed.

(** C2 as stated fails: after two runs of a pointer batch the registry
    holds two entries that wait for the same event, and the one message
    that carries it invokes both handlers. *)
Lemma one_message_two_handlers :
  exists s' e1 e2,
    on_message (open 2) (MText (JObj ime_start)) after_two_runs
    = (Val tt, s') /\
    fired (skipn (List.length (trace after_two_runs)) (trace s')) = [e1; e2] /\
    e1 <> e2 /\
    In e1 (registered_callbacks after_two_runs) /\
    In e2 (registered_callbacks after_two_runs) /\
    count e1 (registered_callbacks s') = 0 /\
    count e2 (registered_callbacks s') = 0.
Proof.
  eexists _, _, _. split; [vm_compute; reflexivity|].
  split; [reflexivity|].
  split; [discriminate|].
  split; [simpl; auto 10|].
  split; [simpl; auto 10|].
  split; reflexivity.
Qed.

(** A decoded object that matches no entry invokes no handler and
    leaves the registry as it is, whatever the callbacks are. *)
Lemma no_match_no_effect open_rec fields s :
  filter (hit (JObj fields)) (registered_callbacks s) = [] ->
  on_message open_rec (MText (JObj fields)) s
  = (Val tt, set_trace (trace s ++ [Log Debug "incoming message: "]) s).
Proof.
  intros H. unfold on_message, bind at 1, ret. unfold bind at 1, log, emit, modify.
  unfold bind at 1, get. rsimpl.
  generalize (set_trace (trace s ++ [Log Debug "incoming message: "]) s).
  revert H. induction (registered_callbacks s) as [|[[h key] data] l IH];
    intros H s1; [reflexivity|].
  simpl in H. simpl dispatch. unfold bind at 1, lift.
  rewrite matches_object. rewrite (hit_handler _ (ImeStart 0 0) h).
  destruct (hit (JObj fields) (h, key, data)); [discriminate|].
  unfold when, bind at 1, ret. apply IH. exact H.
Qed.
Lemma count_cons x y l :
  count x (y :: l) = (if entry_eqb x y then 1 else 0) + count x l.
Proof. unfold count. simpl. destruct (entry_eqb x y); reflexivity. Qed.

Lemma count_app x l l' : count x (l ++ l') = count x l + count x l'.
Proof. unfold count. rewrite filter_app, length_app. reflexivity. Qed.

Lemma count_in x l : In x l <-> 1 <= count x l.
Proof.
  induction l as [|y l IH]; simpl.
  - unfold count. simpl. split; [intros []|lia].
  - rewrite count_cons. destruct (entry_eqb x y) eqn:E.
    + apply entry_eqb_eq in E. subst. split; [lia|auto].
    + split.
      * intros [H|H]; [subst; rewrite entry_eqb_refl in E; discriminate|].
        apply IH in H. lia.
      * intros H. right. apply IH. lia.
Qed.

Lemma list_remove_count e l l' :
  list_remove entry_eqb e l = Some l' ->
  forall x, count x l' + (if entry_eqb x e then 1 else 0) = count x l.
Proof.
  revert l'. induction l as [|y l IH]; intros l' H x; simpl in H; [discriminate|].
  destruct (entry_eqb y e) eqn:E.
  - inversion H. subst. apply entry_eqb_eq in E. subst.
    rewrite count_cons. lia.
  - destruct (list_remove entry_eqb e l) as [t|]; [|discriminate].
    inversion H. subst. rewrite !count_cons. specialize (IH t eq_refl x). lia.
Qed.

Lemma list_remove_present e l :
  existsb (entry_eqb e) l = true -> list_remove entry_eqb e l <> None.
Proof.
  induction l as [|y l IH]; simpl; [discriminate|].
  rewrite (entry_eqb_sym e y).
  destruct (entry_eqb y e); simpl; [discriminate|].
  intros H. specialize (IH H).
  destruct (list_remove entry_eqb e l); [discriminate|congruence].
Qed.

Lemma set_registered_callbacks_same s :
  set_registered_callbacks (registered_callbacks s) s = s.
Proof. destruct s; reflexivity. Qed.

(** [unregister_receive_callback] returns and only shrinks the
    registry. *)
Lemma unregister_spec h k d s :
  exists l,
    unregister_receive_callback h k d s
    = (Val tt, set_registered_callbacks l s) /\
    forall x, count x l <= count x (registered_callbacks s).
Proof.
  unfold unregister_receive_callback, bind, get.
  destruct (existsb _ _) eqn:E.
  - pose proof (list_remove_present _ _ E) as Hp.
    destruct (list_remove entry_eqb (h, k, d) (registered_callbacks s))
      as [l|] eqn:R; [|congruence].
    exists l. split; [reflexivity|].
    intros x. pose proof (list_remove_count _ _ _ R x). lia.
  - exists (registered_callbacks s).
    rewrite set_registered_callbacks_same. split; [reflexivity|]. auto.
Qed.

Lemma wp_unregister h k d (Q : res unit -> remote -> Prop) s :
  (forall l, (forall x, count x l <= count x (registered_callbacks s)) ->
             Q (Val tt) (set_registered_callbacks l s)) ->
  wp (unregister_receive_callback h k d) Q s.
Proof.
  intros H. destruct (unregister_spec h k d s) as (l & E & Hl).
  unfold wp. rewrite E. simpl. auto.
Qed.

Lemma teardown_eq s :
  teardown s
  = (Val tt,
     set_registered_callbacks []
       (set_loop_event false
          (set_trace (trace s ++ [Log Info "Websocket closed"])
             (set_sock None (set_power_event true s))))).
Proof. reflexivity. Qed.

Lemma wp_teardown (Q : res unit -> remote -> Prop) s :
  Q (Val tt)
    (set_registered_callbacks []
       (set_loop_event false
          (set_trace (trace s ++ [Log Info "Websocket closed"])
             (set_sock None (set_power_event true s))))) ->
  wp teardown Q s.
Proof. unfold wp. rewrite teardown_eq. auto. Qed.

Lemma wp_close (Q : res unit -> remote -> Prop) s :
  match sock s with
  | None => Q (Val tt) s
  | Some c =>
      let s1 := set_trace (trace s ++ [Close c]) (set_loop_event true s) in
      if parked s
      then wp recv_fails_in_parked_thread Q s1
      else Q (Val tt) s1
  end ->
  wp close Q s.
Proof.
  unfold close. intros H. apply wp_bind, wp_get.
  destruct (sock s) as [c|]; [|exact H].
  apply wp_bind, wp_modify. apply wp_bind, wp_emit. rsimpl.
  destruct (parked s); exact H.
Qed.

Lemma wp_recv_fails (Q : res unit -> remote -> Prop) s :
  Q (Val tt)
    (set_registered_callbacks []
       (set_loop_event false
          (set_trace (trace s ++ [Log Info "Websocket closed"])
             (set_sock None
                (set_power_event true
                   (set_loop_event true
                      (set_inbox [] (set_parked false s)))))))) ->
  wp recv_fails_in_parked_thread Q s.
Proof. intros H. exact H. Qed.

Lemma wp_create_connection u (Q : res unit -> remote -> Prop) s :
  (let s1 := set_trace (trace s ++ [Connect u]) s in
   match net s with
   | [] => Q (Exc (RuntimeError "Unable to connect to the TV")) s1
   | Refused :: rest =>
       Q (Exc (RuntimeError "Unable to connect to the TV")) (set_net rest s1)
   | Accept frames :: rest =>
       Q (Val tt)
         (set_inbox frames
            (set_next_conn (S (next_conn s))
               (set_sock (Some (next_conn s)) (set_net rest s1))))
   end) ->
  wp (create_connection u) Q s.
Proof.
  unfold create_connection, wp, bind, emit, modify, get, raise. simpl.
  destruct (net s) as [|[|frames] rest]; simpl; auto.
Qed.

End RegistryFacts.

(* ================================================================== *)
(** * The receive thread and the handshake *)

Module ReceiveFacts.

Import RegistryFacts.

Lemma eta_token_trace s :
  set_token_file (token_file s) (set_trace (trace s ++ []) s) = s.
Proof. rewrite app_nil_r. destruct s; reflexivity. Qed.

Lemma eta_trace s : set_trace (trace s ++ []) s = s.
Proof. rewrite app_nil_r. destruct s; reflexivity. Qed.

(** The first part of [open()] touches the token file and the log
    only. *)
Lemma wp_saved_token (Q : res (string * string) -> remote -> Prop) s :
  (forall tl file t,
      forallb is_log t = true ->
      forallb calm t = true ->
      Q (Val tl) (set_token_file file (set_trace (trace s ++ t) s))) ->
  wp saved_token Q s.
Proof.
  intros H. unfold saved_token. apply wp_bind, wp_get.
  destruct (scan_tokens (host s) (PyStr.split PyStr.nl (token_file s)))
    as [token all_tokens].
  destruct (PyStr.truthy token).
  - apply wp_bind, wp_bind, wp_emit. apply wp_ret.
    apply wp_bind. apply wp_when; intros _.
    + apply wp_modify, wp_ret. rsimpl. apply H; reflexivity.
    + apply wp_ret.
      match goal with
      | |- Q _ ?s1 =>
          replace s1 with (set_token_file (token_file s) s1)
            by (destruct s; reflexivity)
      end.
      apply H; reflexivity.
  - apply wp_bind, wp_ret.
    apply wp_bind. apply wp_when; intros _.
    + apply wp_modify, wp_ret.
      match goal with
      | |- Q _ (set_token_file ?f s) =>
          replace (set_token_file f s)
            with (set_token_file f (set_trace (trace s ++ []) s))
            by (rewrite eta_trace; reflexivity)
      end.
      apply H; reflexivity.
    + apply wp_ret.
      match goal with
      | |- Q ?r s =>
          replace (Q r s)
            with (Q r (set_token_file (token_file s)
                         (set_trace (trace s ++ []) s)))
            by (rewrite eta_token_trace; reflexivity)
      end.
      apply H; reflexivity.
Qed.

Lemma wp_connect token (Q : res unit -> remote -> Prop) s :
  (forall u p,
      let s1 := set_trace (trace s ++ [Connect u]) (set_port p s) in
      match net s with
      | [] => Q (Exc (RuntimeError "Unable to connect to the TV")) s1
      | Refused :: rest =>
          Q (Exc (RuntimeError "Unable to connect to the TV"))
            (set_net rest s1)
      | Accept frames :: rest =>
          Q (Val tt)
            (set_inbox frames
               (set_next_conn (S (next_conn s))
                  (set_sock (Some (next_conn s)) (set_net rest s1))))
      end) ->
  wp (connect token) Q s.
Proof.
  intros H. unfold connect. apply wp_bind, wp_get.
  destruct (_ || _); apply wp_bind, wp_modify, wp_create_connection; rsimpl;
    apply H.
Qed.

Lemma wp_new_id (Q : res nat -> remote -> Prop) s :
  Q (Val (next_id s)) (set_next_id (S (next_id s)) s) -> wp new_id Q s.
Proof. exact (fun H => H). Qed.

Lemma wp_register h k d (Q : res unit -> remote -> Prop) s :
  Q (Val tt)
    (set_registered_callbacks (registered_callbacks s ++ [(h, k, d)]) s) ->
  wp (register_receive_callback h k d) Q s.
Proof. exact (fun H => H). Qed.

Lemma wp_start_thread f (Q : res unit -> remote -> Prop) s :
  wp f (fun r s' =>
          match r with
          | Exc _ => Q (Val tt) s'
          | _ => Q r s'
          end) (set_trace (trace s ++ [ThreadStart]) s) ->
  wp (start_thread f) Q s.
Proof.
  unfold start_thread. intros H. apply wp_bind, wp_emit.
  unfold wp in *. destruct (f _) as [[a|e|] s']; exact H.
Qed.

Lemma wp_event_set ev (Q : res unit -> remote -> Prop) s :
  Q (Val tt) (set_events (ev :: events s) s) -> wp (event_set ev) Q s.
Proof. exact (fun H => H). Qed.

Lemma loop_unfold open_rec n :
  loop open_rec (S n)
  = (s <- get ;;
     if loop_event s then teardown
     else
       match sock s with
       | None => modify (set_loop_event true) ;; loop open_rec n
       | Some _ =>
           match inbox s with
           | [] => modify (set_parked true)
           | f :: rest =>
               modify (set_inbox rest) ;;
               match f with
               | RecvError => modify (set_loop_event true)
               | Recv MEmpty => ret tt
               | Recv m =>
                   try_except (on_message open_rec m)
                              (modify (set_loop_event true))
               end ;;
               loop open_rec n
           end
       end)%monad.
Proof. reflexivity. Qed.

Lemma open_unfold f : open (S f) = open_body (loop (open f) f).
Proof. reflexivity. Qed.

Ltac trace_grows :=
  rsimpl; rewrite <- ?app_assoc; eexists; split; [reflexivity|];
  rewrite ?forallb_app; simpl;
  repeat match goal with
         | H : forallb _ _ = true |- _ => rewrite H
         end;
  reflexivity.

(** [open()] called from a callback, that is with a socket and inside
    the receive thread: it closes the socket, which raises the stop
    flag, so the receive thread that it starts ends at once; no
    callback is invoked and no event is set; it cannot return with the
    session up. *)
Lemma open_inside_callback f s c :
  sock s = Some c ->
  parked s = false ->
  2 <= f ->
  wp (open f)
     (fun r s' =>
        parked s' = false /\
        events s' = events s /\
        (exists t, trace s' = trace s ++ t /\ forallb calm t = true) /\
        match r with
        | Val _ =>
            sock s' = None /\ power_event s' = true /\
            registered_callbacks s' = []
        | Exc _ =>
            registered_callbacks s' = registered_callbacks s \/
            registered_callbacks s' = []
        | Fuel => False
        end) s.
Proof.
  intros Hs Hp Hf.
  destruct f as [|[|f]]; try lia. clear Hf.
  rewrite open_unfold. unfold open_body.
  apply wp_bind, wp_saved_token. intros [token line] file t Hl Hc.
  apply wp_bind, wp_get. apply wp_bind. apply wp_when; intros Hpow.
  2:{ unfold power in Hpow. rsimpl. rewrite Hs in Hpow. discriminate. }
  clear Hpow. apply wp_close. rsimpl. rewrite Hs, Hp. cbv zeta.
  apply wp_bind, wp_connect. intros u p. rsimpl. cbv zeta.
  destruct (net s) as [|[|frames] rest].
  - rsimpl. repeat split; auto. trace_grows.
  - rsimpl. repeat split; auto. trace_grows.
  - unfold handshake. apply wp_bind, wp_new_id.
    apply wp_bind, wp_register. apply wp_bind, wp_register.
    apply wp_bind, wp_start_thread.
    rewrite loop_unfold. apply wp_bind, wp_get. rsimpl.
    apply wp_teardown.
    apply wp_bind, wp_emit. apply wp_bind, wp_get.
    match goal with |- wp (if ?b then _ else _) _ _ => destruct b end.
    + apply wp_bind, wp_close. rsimpl. apply wp_raise.
      rsimpl. repeat split; auto. trace_grows.
    + apply wp_modify. rsimpl. repeat split; auto. trace_grows.
Qed.

Lemma contains_not_fuel k v : Py.contains k v <> Fuel.
Proof. destruct v; simpl; discriminate. Qed.

Lemma getitem_not_fuel v k : Py.getitem v k <> Fuel.
Proof.
  destruct v; simpl; try discriminate.
  destruct (Py.lookup k fields); discriminate.
Qed.

Lemma matches_not_fuel k d v : matches k d v <> Fuel.
Proof.
  unfold matches. pose proof (contains_not_fuel k v).
  destruct (Py.contains k v) as [[|]| |]; try discriminate; try congruence.
  destruct d; [|discriminate].
  pose proof (getitem_not_fuel v k).
  destruct (Py.getitem v k); try discriminate; congruence.
Qed.

Lemma wp_lift_total {A} (r : res A) (Q : res A -> remote -> Prop) s :
  r <> Fuel ->
  (forall a, r = Val a -> Q (Val a) s) ->
  (forall e, r = Exc e -> Q (Exc e) s) ->
  wp (lift r) Q s.
Proof.
  intros H1 H2 H3. apply wp_lift. destruct r; auto. congruence.
Qed.

(** The removal loop of [auth_callback] computes a list or raises; it
    does not touch the state. *)
Lemma removal_loop_pure (test : bool) l : forall (acc : M (list string)),
  (exists r, r <> Fuel /\ forall s, acc s = (r, s)) ->
  exists r, r <> Fuel /\
    forall s,
      fold_left
        (fun (acc : M (list string)) (lne : string) =>
           td <- acc ;;
           if test
           then match list_remove String.eqb lne td with
                | Some td' => ret td'
                | None => raise ValueError
                end
           else ret td)
        l acc s = (r, s).
Proof.
  induction l as [|x l IH]; intros acc Hacc; simpl; [exact Hacc|].
  apply IH. destruct Hacc as (r & Hr & Hacc).
  destruct r as [td|e|]; [| |congruence].
  - destruct test.
    + destruct (list_remove String.eqb x td) as [td'|] eqn:E.
      * exists (Val td'). split; [discriminate|]. intros s.
        unfold bind. rewrite Hacc, E. reflexivity.
      * exists (Exc ValueError). split; [discriminate|]. intros s.
        unfold bind. rewrite Hacc, E. reflexivity.
    + exists (Val td). split; [discriminate|]. intros s.
      unfold bind. rewrite Hacc. reflexivity.
  - exists (Exc e). split; [discriminate|]. intros s.
    unfold bind. rewrite Hacc. reflexivity.
Qed.

Lemma wp_pure {A} (m : M A) (Q : res A -> remote -> Prop) s :
  (exists r, r <> Fuel /\ forall s, m s = (r, s)) ->
  (forall a, Q (Val a) s) ->
  (forall e, Q (Exc e) s) ->
  wp m Q s.
Proof.
  intros (r & Hr & Hm) H1 H2. unfold wp. rewrite Hm. simpl.
  destruct r; auto. congruence.
Qed.

Lemma event_is_set_cons e ev s :
  event_is_set e (set_events (ev :: events s) s) = true ->
  event_is_set e s = true \/ e = ev.
Proof.
  unfold event_is_set. rsimpl. simpl. intros H.
  apply orb_true_iff in H as [H|H]; auto.
  apply Nat.eqb_eq in H. auto.
Qed.

Lemma auth_callback_spec ev line response s :
  parked s = false ->
  wp (auth_callback ev line response)
     (call_post (AuthCallback ev line) s) s.
Proof.
  intros Hp. unfold auth_callback.
  assert (Hexc : forall e, call_post (AuthCallback ev line) s (Exc e) s).
  { intros e. unfold call_post. repeat split; auto.
    exists []. rewrite app_nil_r. auto. }
  assert (Htail : forall file t,
    forallb calm t = true ->
    wp (log Debug "Access granted." ;;
        event_set ev ;;
        unregister_receive_callback (UnauthorizedCallback ev line) "event"
          (Some "ms.channel.unauthorized") ;;
        modify (set_power_event true))
       (call_post (AuthCallback ev line) s)
       (set_token_file file (set_trace (trace s ++ t) s))).
  { intros file t Ht.
    apply wp_bind, wp_emit. apply wp_bind, wp_event_set.
    apply wp_bind, wp_unregister. intros l Hl. rsimpl.
    apply wp_modify. unfold call_post. rsimpl.
    split; [exact Hp|]. split; [trace_grows|]. split; [exact Hl|].
    split; [|left; auto].
    intros e He. unfold event_is_set in *. rsimpl. simpl in He.
    apply orb_true_iff in He as [He|He]; auto.
    apply Nat.eqb_eq in He. auto. }
  apply wp_bind, wp_lift_total; [apply contains_not_fuel| |auto].
  intros has_data _.
  apply wp_bind.
  apply wp_conseq with
    (Q := fun r s' => s' = s /\ r <> Fuel).
  { destruct has_data.
    - apply wp_bind, wp_lift_total; [apply getitem_not_fuel| |].
      + intros d _. apply wp_lift. split; [reflexivity|apply contains_not_fuel].
      + intros e _. split; [reflexivity|discriminate].
    - apply wp_ret. split; [reflexivity|discriminate]. }
  intros [has_token|e|] s' [-> Hr]; [|apply Hexc|congruence].
  apply wp_bind. apply wp_when; intros _.
  - apply wp_bind, wp_get. apply wp_bind.
    apply wp_pure; [|intros a|intros e; apply Hexc].
    { apply removal_loop_pure. eexists (Val _). split; [discriminate|].
      intros s0. reflexivity. }
    apply wp_bind, wp_lift_total; [apply getitem_not_fuel| |auto].
    intros d _.
    apply wp_bind, wp_lift_total; [apply getitem_not_fuel| |auto].
    intros tk _.
    apply wp_bind.
    destruct tk; try (apply wp_raise; apply Hexc).
    apply wp_ret. apply wp_bind, wp_emit. apply wp_modify.
    rsimpl. apply Htail. reflexivity.
  - rewrite <- (eta_token_trace s) at 2. apply Htail. reflexivity.
Qed.

Lemma unauthorized_callback_spec f ev line response s c :
  sock s = Some c ->
  parked s = false ->
  2 <= f ->
  wp (unauthorized_callback (open f) ev line response)
     (call_post (UnauthorizedCallback ev line) s) s.
Proof.
  intros Hs Hp Hf. unfold unauthorized_callback.
  apply wp_bind, wp_event_set. apply wp_bind, wp_unregister. intros l Hl.
  rsimpl. apply wp_bind, wp_get. rsimpl.
  assert (Hev : forall e evs,
    existsb (Nat.eqb e) (ev :: evs) = true ->
    existsb (Nat.eqb e) evs = true \/ e = ev).
  { intros e evs H. simpl in H. apply orb_true_iff in H as [H|H]; auto.
    apply Nat.eqb_eq in H. auto. }
  destruct (port s =? 8001)%Z.
  - apply wp_bind, wp_emit. apply wp_bind, wp_modify.
    eapply wp_conseq.
    { apply (open_inside_callback f _ c); rsimpl; auto. }
    intros r s' (H1 & H2 & (t & H3 & H4) & H5). rsimpl.
    unfold call_post. split; [exact H1|]. split.
    { rewrite H3. exists (Log Debug "Websocket connection failed. Trying ssl connection" :: t).
      rewrite <- app_assoc. split; [reflexivity|]. simpl. exact H4. }
    split.
    { intros x. destruct r as [|e|]; [| |contradiction].
      - destruct H5 as (_ & _ & ->). unfold count. simpl. lia.
      - destruct H5 as [->| ->]; [apply Hl|unfold count; simpl; lia]. }
    split.
    { intros e. unfold event_is_set. rewrite H2. apply Hev. }
    destruct r as [|e|]; auto.
  - apply wp_bind, wp_close. rsimpl. rewrite Hs, Hp. cbv zeta.
    apply wp_raise. unfold call_post. rsimpl.
    split; [exact Hp|]. split; [trace_grows|]. split; [exact Hl|].
    split; [|exact I].
    intros e. unfold event_is_set. rsimpl. apply Hev.
Qed.

(** Every callback, invoked inside the receive thread. *)
Lemma call_spec f h response s c :
  sock s = Some c ->
  parked s = false ->
  2 <= f ->
  wp (call (open f) h response) (call_post h s) s.
Proof.
  intros Hs Hp Hf.
  assert (Hplain : forall ev, plain h = true -> event_of h = ev ->
            wp (event_set ev) (call_post h s) s).
  { intros ev Hh Hev. apply wp_event_set. unfold call_post. rsimpl.
    split; [exact Hp|]. split; [exists []; rewrite app_nil_r; auto|].
    split; [auto|]. split.
    - intros e He. apply event_is_set_cons in He. rewrite Hev. exact He.
    - left. repeat split; auto. rewrite Hh. discriminate. }
  destruct h; simpl call.
  - apply auth_callback_spec. exact Hp.
  - apply (unauthorized_callback_spec f ev line response s c); assumption.
  - apply Hplain; reflexivity.
  - apply Hplain; reflexivity.
  - apply Hplain; reflexivity.
  - apply Hplain; reflexivity.
Qed.

Lemma fire_spec f cb key data response s c :
  sock s = Some c ->
  parked s = false ->
  2 <= f ->
  wp (emit (Fire (cb, key, data) response) ;;
      call (open f) cb response ;;
      s <- get ;;
      match list_remove entry_eqb (cb, key, data) (registered_callbacks s) with
      | Some l => modify (set_registered_callbacks l)
      | None => raise ValueError
      end)
     (fire_post (cb, key, data) response s) s.
Proof.
  intros Hs Hp Hf. apply wp_bind, wp_emit. apply wp_bind.
  eapply wp_conseq.
  { apply (call_spec f cb response _ c); rsimpl; auto. }
  intros r s1 (H1 & (t & H2 & H3) & H4 & H5 & H6). rsimpl.
  assert (Htr : exists t0, trace s1 = trace s ++ Fire (cb, key, data) response :: t0
                           /\ forallb calm t0 = true).
  { exists t. rewrite H2, <- app_assoc. auto. }
  assert (Hevs : forall e, event_is_set e s1 = true ->
            event_is_set e s = true \/ e = event_of cb).
  { intros e He. apply H5 in He. exact He. }
  destruct r as [[]|e|]; [| |contradiction].
  2:{ unfold fire_post. repeat split; auto. }
  apply wp_bind, wp_get.
  destruct (list_remove entry_eqb (cb, key, data) (registered_callbacks s1))
    as [l|] eqn:R.
  - apply wp_modify. unfold fire_post. rsimpl.
    pose proof (list_remove_count _ _ _ R) as Hc.
    destruct H6 as [(Ha & Hb & Hc' & Hd & He)|(Ha & Hb & Hc')].
    2:{ rewrite Hc' in R. discriminate. }
    split; [exact H1|]. split; [exact Htr|]. split; [exact Hevs|].
    split; [intros e; specialize (Hc e); specialize (H4 e); lia|].
    repeat split; auto.
    intros e. specialize (Hc e). specialize (H4 e). lia.
  - apply wp_raise. unfold fire_post. repeat split; auto.
Qed.

Lemma calm_quiet t : forallb calm t = true -> forallb quiet t = true.
Proof.
  induction t as [|a t IH]; simpl; auto.
  intros H. apply andb_true_iff in H as [H1 H2].
  unfold calm in H1. apply andb_true_iff in H1 as [H1 _].
  rewrite H1. auto.
Qed.

Lemma calm_fired t : forallb calm t = true -> fired t = [].
Proof.
  induction t as [|a t IH]; simpl; auto.
  intros H. apply andb_true_iff in H as [H1 H2].
  rewrite (IH H2). destruct a; try reflexivity. discriminate.
Qed.

Lemma dispatch_post_nil s (r : res unit) :
  parked s = false ->
  r <> Fuel ->
  forall rest, dispatch_post rest s r s.
Proof.
  intros Hp Hr rest. split; [exact Hp|]. exists []. rewrite app_nil_r.
  split; [reflexivity|]. split; [reflexivity|].
  split; [intros e; unfold count at 1; simpl; lia|].
  split; [auto|].
  destruct r; [|exact I|congruence].
  repeat split; auto.
  intros (x & [] & _).
Qed.

(** The [for] of [on_message], for any callbacks. *)
Lemma dispatch_spec f response c : forall rest s,
  sock s = Some c ->
  parked s = false ->
  2 <= f ->
  wp (dispatch (open f) response rest) (dispatch_post rest s) s.
Proof.
  induction rest as [|[[cb key] data] rest IH]; intros s Hs Hp Hf.
  - apply wp_ret. apply dispatch_post_nil; [exact Hp|discriminate].
  - simpl dispatch.
    apply wp_bind, wp_lift_total; [apply matches_not_fuel| |].
    2:{ intros e _. apply dispatch_post_nil; [exact Hp|discriminate]. }
    intros b _. apply wp_bind. apply wp_when; intros Hb.
    + eapply wp_conseq.
      { apply (fire_spec f cb key data response s c); assumption. }
      intros r s1 (H1 & (t1 & H2 & H3) & H4 & H5 & H6).
      destruct r as [[]|e|]; [| |contradiction].
      2:{ split; [exact H1|]. exists (Fire (cb, key, data) response :: t1).
          split; [exact H2|]. split; [simpl; apply calm_quiet; exact H3|].
          simpl. rewrite (calm_fired _ H3).
          split.
          { intros e0. rewrite !count_cons. unfold count at 1. simpl. lia. }
          split; [|exact I].
          intros e0 He0. apply H4 in He0 as [He0| ->]; auto.
          right. exists (cb, key, data). simpl. auto. }
      destruct H6 as (Ha & Hb' & Hc & Hd & He & Hg).
      eapply wp_conseq.
      { apply IH; [congruence|assumption|assumption]. }
      intros r s2 (G1 & t2 & G2 & G3 & G4 & G5 & G6).
      split; [exact G1|].
      exists (Fire (cb, key, data) response :: t1 ++ t2).
      split.
      { rewrite G2, H2, <- app_assoc. reflexivity. }
      split.
      { simpl. rewrite forallb_app, (calm_quiet _ H3), G3. reflexivity. }
      assert (Hfired : fired (Fire (cb, key, data) response :: t1 ++ t2)
                       = (cb, key, data) :: fired t2).
      { simpl. rewrite fired_app, (calm_fired _ H3). reflexivity. }
      rewrite Hfired.
      split.
      { intros e0. rewrite !count_cons. specialize (G4 e0). lia. }
      split.
      { intros e0 He0. apply G5 in He0 as [He0|(x & Hx & Hx')].
        - apply H4 in He0 as [He0| ->]; auto.
          right. exists (cb, key, data). simpl. auto.
        - right. exists x. simpl. auto. }
      destruct r as [[]|e|]; [|exact I|contradiction].
      destruct G6 as (Ga & Gb & Gc & Gd & Ge & Gg).
      split; [congruence|]. split; [congruence|]. split; [congruence|].
      split.
      { intros e0. rewrite count_cons. specialize (Gd e0). specialize (Hd e0).
        lia. }
      split; [auto|].
      intros (x & [Hx|Hx] & Hx').
      * subst x. auto.
      * apply Gg. exists x. auto.
    + eapply wp_conseq.
      { apply IH; assumption. }
      intros r s2 (G1 & t2 & G2 & G3 & G4 & G5 & G6).
      split; [exact G1|]. exists t2.
      split; [exact G2|]. split; [exact G3|].
      split.
      { intros e0. rewrite count_cons. specialize (G4 e0). lia. }
      split; [exact G5|exact G6].
Qed.

Lemma order_post_nil response rest s e :
  order_post response rest s (Exc e) s.
Proof.
  exists []. rewrite app_nil_r. split; [reflexivity|].
  split; [exists 0; reflexivity|]. split; [auto|discriminate].
Qed.

(** The order of the invocations in the [for] of [on_message]. *)
Lemma dispatch_order f response c : forall rest s,
  sock s = Some c ->
  parked s = false ->
  2 <= f ->
  wp (dispatch (open f) response rest) (order_post response rest s) s.
Proof.
  induction rest as [|[[cb key] data] rest IH]; intros s Hs Hp Hf.
  - apply wp_ret. exists []. rewrite app_nil_r. split; [reflexivity|].
    split; [exists 0; reflexivity|]. auto.
  - simpl dispatch.
    apply wp_bind, wp_lift_total; [apply matches_not_fuel| |].
    2:{ intros e _. apply order_post_nil. }
    intros b Hm.
    assert (Hhit : hit response (cb, key, data) = b).
    { unfold hit. simpl. rewrite Hm. destruct b; reflexivity. }
    apply wp_bind. apply wp_when; intros Hb.
    + rewrite Hb in Hhit.
      eapply wp_conseq.
      { apply (fire_spec f cb key data response s c); assumption. }
      intros r s1 (H1 & (t1 & H2 & H3) & H4 & H5 & H6).
      destruct r as [[]|e|]; [| |contradiction].
      2:{ exists (Fire (cb, key, data) response :: t1).
          split; [exact H2|].
          assert (Hf1 : fired (Fire (cb, key, data) response :: t1)
                        = [(cb, key, data)])
            by (simpl; rewrite (calm_fired _ H3); reflexivity).
          rewrite Hf1. simpl filter. rewrite Hhit.
          split; [exists 1; reflexivity|].
          split; discriminate. }
      destruct H6 as (Ha & _).
      eapply wp_conseq.
      { apply IH; [congruence|assumption|assumption]. }
      intros r s2 (t2 & G2 & (k & G3) & G4 & G5).
      exists (Fire (cb, key, data) response :: t1 ++ t2).
      split; [rewrite G2, H2, <- app_assoc; reflexivity|].
      assert (Hfired : fired (Fire (cb, key, data) response :: t1 ++ t2)
                       = (cb, key, data) :: fired t2).
      { simpl. rewrite fired_app, (calm_fired _ H3). reflexivity. }
      rewrite Hfired. simpl filter. rewrite Hhit.
      split; [exists (S k); simpl; rewrite G3; reflexivity|].
      split; [discriminate|].
      intros Hr. rewrite (G5 Hr). reflexivity.
    + rewrite Hb in Hhit.
      unfold order_post. simpl filter. rewrite Hhit.
      eapply wp_conseq.
      { apply IH; assumption. }
      intros r s2 H. exact H.
Qed.
Lemma on_message_spec f m s c :
  sock s = Some c ->
  parked s = false ->
  2 <= f ->
  wp (on_message (open f) m) (dispatch_post (registered_callbacks s) s) s.
Proof.
  intros Hs Hp Hf. unfold on_message. apply wp_bind.
  destruct m as [| |j].
  - apply wp_raise. apply dispatch_post_nil; [exact Hp|discriminate].
  - apply wp_raise. apply dispatch_post_nil; [exact Hp|discriminate].
  - apply wp_ret. apply wp_bind, wp_emit. apply wp_bind, wp_get. rsimpl.
    eapply wp_conseq.
    { apply (dispatch_spec f j c); rsimpl; auto. }
    intros r s' (G1 & t & G2 & G3 & G4 & G5 & G6). rsimpl.
    split; [exact G1|]. exists (Log Debug "incoming message: " :: t).
    split; [rewrite G2, <- app_assoc; reflexivity|].
    split; [simpl; exact G3|].
    split; [exact G4|]. split; [exact G5|exact G6].
Qed.

Lemma loop_stops open_rec n s :
  loop_event s = true -> 1 <= n -> loop open_rec n s = teardown s.
Proof.
  intros H Hn. destruct n as [|n]; [lia|].
  rewrite loop_unfold. unfold bind at 1, get. rewrite H. reflexivity.
Qed.

Lemma wp_loop_stops open_rec n (Q : res unit -> remote -> Prop) s :
  loop_event s = true -> 1 <= n ->
  Q (Val tt)
    (set_registered_callbacks []
       (set_loop_event false
          (set_trace (trace s ++ [Log Info "Websocket closed"])
             (set_sock None (set_power_event true s))))) ->
  wp (loop open_rec n) Q s.
Proof.
  intros H Hn HQ. unfold wp. rewrite (loop_stops _ _ _ H Hn), teardown_eq.
  exact HQ.
Qed.

Lemma count_nil e : count e [] = 0.
Proof. reflexivity. Qed.

(** The receive loop, for any frames and any callbacks. *)
Lemma loop_spec f : 2 <= f -> forall n s,
  parked s = false ->
  (loop_event s = true /\ 1 <= n) \/ (List.length (inbox s) + 2 <= n) ->
  wp (loop (open f) n) (loop_post s) s.
Proof.
  intros Hf. induction n as [|n IH]; intros s Hp Hn; [lia|].
  destruct (loop_event s) eqn:Hle.
  { apply wp_loop_stops; [exact Hle|lia|].
    split; [reflexivity|]. exists [Log Info "Websocket closed"]. rsimpl.
    split; [reflexivity|]. split; [reflexivity|].
    split; [intros e; simpl; rewrite ?count_nil; lia|].
    split; [auto|]. split; [auto|]. split; [auto|].
    right. repeat split; auto. }
  destruct Hn as [[Hn _]|Hn]; [discriminate|].
  rewrite loop_unfold. apply wp_bind, wp_get. rewrite Hle.
  destruct (sock s) as [c|] eqn:Hs.
  2:{ apply wp_bind, wp_modify. apply wp_loop_stops; [reflexivity|lia|].
      split; [reflexivity|]. exists [Log Info "Websocket closed"]. rsimpl.
      split; [reflexivity|]. split; [reflexivity|].
      split; [intros e; simpl; rewrite ?count_nil; lia|].
      split; [auto|]. split; [auto|]. split; [auto|].
      right. repeat split; auto. }
  destruct (inbox s) as [|fr rest] eqn:Hin.
  { apply wp_modify. split; [reflexivity|]. exists []. rsimpl.
    rewrite app_nil_r.
    split; [reflexivity|]. split; [reflexivity|].
    split; [intros e; simpl; rewrite ?count_nil; lia|].
    split; [auto|]. split; [auto|].
    split; [intros (x & [] & _)|].
    left. repeat split; auto. congruence. }
  simpl in Hn.
  apply wp_bind, wp_modify.
  assert (Hstop : forall s1 t1,
    parked s1 = false ->
    trace s1 = trace s ++ t1 ->
    forallb quiet t1 = true ->
    (forall e, count e (fired t1) <= count e (registered_callbacks s)) ->
    (forall e, event_is_set e s1 = true ->
               event_is_set e s = true \/
               exists x, In x (fired t1) /\ event_of (handler_of x) = e) ->
    wp (loop (open f) n) (loop_post s) (set_loop_event true s1)).
  { intros s1 t1 K1 K2 K3 K4 K5.
    apply wp_loop_stops; [reflexivity|lia|].
    split; [reflexivity|]. exists (t1 ++ [Log Info "Websocket closed"]).
    rsimpl. split; [rewrite K2, <- app_assoc; reflexivity|].
    split; [rewrite forallb_app, K3; reflexivity|].
    rewrite fired_app. simpl. rewrite app_nil_r.
    split; [intros e; rewrite ?count_nil; specialize (K4 e); lia|].
    split; [exact K5|]. split; [auto|]. split; [auto|].
    right. repeat split; auto. }
  assert (Hnil : forall e : entry, count e (fired []) <= count e (registered_callbacks s))
    by (intros e; simpl; rewrite ?count_nil; lia).
  assert (Hcont : forall s1 t1,
    parked s1 = false ->
    sock s1 = sock s -> loop_event s1 = false -> inbox s1 = rest ->
    trace s1 = trace s ++ t1 ->
    forallb quiet t1 = true ->
    (forall e, count e (fired t1) + count e (registered_callbacks s1)
               <= count e (registered_callbacks s)) ->
    (forall e, event_is_set e s1 = true ->
               event_is_set e s = true \/
               exists x, In x (fired t1) /\ event_of (handler_of x) = e) ->
    (power_event s = true -> power_event s1 = true) ->
    ((exists x, In x (fired t1) /\ plain_entry x = false) ->
     power_event s1 = true) ->
    wp (loop (open f) n) (loop_post s) s1).
  { intros s1 t1 K1 K2 K3 K4 K5 K6 K7 K8 K9 K10.
    eapply wp_conseq.
    { apply IH; [exact K1|]. right. rewrite K4. lia. }
    intros r s' (G0 & t & G1 & G2 & G3 & G4 & G5 & G6 & G7).
    split; [exact G0|]. exists (t1 ++ t).
    split; [rewrite G1, K5, <- app_assoc; reflexivity|].
    split; [rewrite forallb_app, K6, G2; reflexivity|].
    rewrite fired_app.
    split.
    { intros e. rewrite count_app. specialize (G3 e). specialize (K7 e). lia. }
    split.
    { intros e He. apply G4 in He as [He|(x & Hx & Hx')].
      - apply K8 in He as [He|(x & Hx & Hx')]; auto.
        right. exists x. split; [apply in_or_app; auto|exact Hx'].
      - right. exists x. split; [apply in_or_app; auto|exact Hx']. }
    split; [auto|].
    split.
    { intros (x & Hx & Hx'). apply in_app_or in Hx as [Hx|Hx].
      - apply G5, K10. exists x. auto.
      - apply G6. exists x. auto. }
    destruct G7 as [(Ga & Gb & Gc & Gd & Ge)|G7]; [left|right; exact G7].
    repeat split; auto. congruence. }
  destruct fr as [|m].
  - apply wp_bind, wp_modify.
    apply (Hstop _ []); rsimpl; auto. rewrite app_nil_r. reflexivity.
  - assert (Hempty : wp (ret tt ;; loop (open f) n) (loop_post s) (set_inbox rest s)).
    { apply wp_bind, wp_ret.
      apply (Hcont _ []); rsimpl; auto;
        try (rewrite app_nil_r; reflexivity);
        try (intros (x & [] & _));
        try (intros e; simpl; rewrite ?count_nil; lia). }
    assert (Hmsg : wp (try_except (on_message (open f) m)
                                  (modify (set_loop_event true)) ;;
                       loop (open f) n) (loop_post s) (set_inbox rest s)).
    { apply wp_bind, wp_try_except.
      eapply wp_conseq.
      { apply (on_message_spec f m _ c); rsimpl; auto. }
      intros r s1 (G1 & t & G2 & G3 & G4 & G5 & G6). rsimpl.
      destruct r as [[]|e|]; [| |contradiction].
      - destruct G6 as (Ga & Gb & Gc & Gd & Ge & Gg). rsimpl.
        apply (Hcont _ t); auto; congruence.
      - apply wp_modify. apply (Hstop _ t); auto. }
    destruct m; [exact Hempty|exact Hmsg|exact Hmsg].
Qed.

Lemma event_is_set_events e s s' :
  events s' = events s -> event_is_set e s' = event_is_set e s.
Proof. unfold event_is_set. intros ->. reflexivity. Qed.

Lemma fresh_not_set s : fresh s -> event_is_set (next_id s) s = false.
Proof.
  intros [H _]. unfold event_is_set.
  destruct (existsb (Nat.eqb (next_id s)) (events s)) eqn:E; auto.
  apply existsb_exists in E as (e & He & Heq).
  apply Nat.eqb_eq in Heq. subst e. apply H in He. lia.
Qed.

(** The connection and the handshake, with the session down. *)
Lemma connect_handshake_spec f token line s :
  down s ->
  fresh s ->
  open_fuel (net s) <= S f ->
  wp (connect token ;; handshake (loop (open f) f) line) (handshake_post s) s.
Proof.
  intros (Hs & Hp & Hle) Hfresh Hf.
  apply wp_bind, wp_connect. intros u p. rsimpl. cbv zeta.
  unfold handshake_post.
  destruct (net s) as [|[|frames] rest] eqn:Hnet.
  - rsimpl. eexists. split; [reflexivity|]. simpl.
    repeat split; auto; apply Hfresh.
  - rsimpl. eexists. split; [reflexivity|]. simpl.
    repeat split; auto; apply Hfresh.
  - simpl in Hf.
    unfold handshake. apply wp_bind, wp_new_id.
    apply wp_bind, wp_register. apply wp_bind, wp_register.
    apply wp_bind, wp_start_thread.
    eapply wp_conseq.
    { apply loop_spec; [lia|rsimpl; exact Hp|]. right. rsimpl. lia. }
    intros r s4 (-> & t4 & G1 & G2 & G3 & G4 & G5 & G6 & G7). rsimpl.
    set (ev := next_id s) in *.
    set (auth := (AuthCallback ev line, "event", Some "ms.channel.connect")) in *.
    set (unauth := (UnauthorizedCallback ev line, "event",
                    Some "ms.channel.unauthorized")) in *.
    apply wp_bind, wp_emit. apply wp_bind, wp_get. rsimpl.
    assert (Hquiet : forall t5, forallb quiet t5 = true ->
              forallb quiet ([Connect u] ++ [ThreadStart] ++ t4 ++ t5) = true).
    { intros t5 H5. rewrite !forallb_app, G2, H5. reflexivity. }
    assert (Hfired : forall t5, forallb calm t5 = true ->
              fired ([Connect u] ++ [ThreadStart] ++ t4 ++ t5) = fired t4).
    { intros t5 H5. rewrite !fired_app, (calm_fired _ H5).
      simpl. rewrite app_nil_r. reflexivity. }
    destruct (event_is_set ev
                (set_trace (trace s4 ++ [Wait (OnEvent ev) 30%Q]) s4)) eqn:Hset;
      simpl negb; cbv iota.
    + (* one of the callbacks was invoked *)
      apply wp_modify. rsimpl.
      exists ([Connect u] ++ [ThreadStart] ++ t4 ++ [Wait (OnEvent ev) 30%Q]).
      split; [rewrite G1; rsimpl; rewrite <- !app_assoc; reflexivity|].
      split; [apply Hquiet; reflexivity|].
      split; [simpl; right; right; apply in_or_app; right; left; reflexivity|].
      assert (Hx : exists x, In x (fired t4) /\ auth_pair ev x = true).
      { unfold event_is_set in Hset. rsimpl.
        destruct (G4 ev Hset) as [Hold|(x & Hx & Hx')].
        - unfold event_is_set in Hold. rsimpl.
          pose proof (fresh_not_set s Hfresh) as Hn. unfold event_is_set in Hn.
          fold ev in Hn. congruence.
        - exists x. split; [exact Hx|].
          assert (Hreg : In x (registered_callbacks s ++ [auth] ++ [unauth])).
          { apply count_in. apply count_in in Hx. specialize (G3 x).
            rewrite <- !app_assoc in G3.
            eapply Nat.le_trans; [exact Hx|].
            eapply Nat.le_trans; [|exact G3]. apply Nat.le_add_r. }
          apply in_app_or in Hreg as [Hreg|[Hreg|[Hreg|[]]]].
          + apply Hfresh in Hreg. fold ev in Hreg. lia.
          + subst x. unfold auth_pair. simpl. apply Nat.eqb_refl.
          + subst x. unfold auth_pair. simpl. apply Nat.eqb_refl. }
      split.
      { apply G6. destruct Hx as (x & Hx & Hx'). exists x. split; [exact Hx|].
        unfold auth_pair, plain_entry, handler_of in *.
        destruct (fst (fst x)); simpl in *; auto; discriminate. }
      left. split; [reflexivity|]. split; [reflexivity|].
      rewrite Hfired by reflexivity. exact Hx.
    + (* the wait ran out *)
      apply wp_bind, wp_close. rsimpl.
      destruct G7 as [(Ga & Gb & Gc & Gd & Ge)|(Ga & Gb & Gc & Gd & Ge)].
      * destruct (sock s4) as [c|] eqn:Hs4; [|congruence].
        rewrite Ga. cbv zeta. apply wp_recv_fails. apply wp_raise. rsimpl.
        exists ([Connect u] ++ [ThreadStart] ++ t4
                ++ [Wait (OnEvent ev) 30%Q; Close c;
                    Log Info "Websocket closed"]).
        split; [rewrite G1; rsimpl; rewrite <- !app_assoc; reflexivity|].
        split; [apply Hquiet; reflexivity|].
        split; [simpl; right; right; apply in_or_app; right; left; reflexivity|].
        split; [reflexivity|]. right. auto.
      * rewrite Gb. apply wp_raise. rsimpl.
        exists ([Connect u] ++ [ThreadStart] ++ t4
                ++ [Wait (OnEvent ev) 30%Q]).
        split; [rewrite G1; rsimpl; rewrite <- !app_assoc; reflexivity|].
        split; [apply Hquiet; reflexivity|].
        split; [simpl; right; right; apply in_or_app; right; left; reflexivity|].
        split; [exact Gc|]. right. auto.
Qed.

Lemma handshake_post_open_post s s1 t0 r s' :
  trace s1 = trace s ++ t0 ->
  forallb calm t0 = true ->
  net s1 = net s ->
  next_id s1 = next_id s ->
  mac_address_ s1 = mac_address_ s ->
  arp s1 = arp s ->
  (sock s = None -> power_event s1 = power_event s) ->
  handshake_post s1 r s' ->
  open_post s r s'.
Proof.
  intros Ht Hc Hnet Hid Hmac Harp Hpow (t & G1 & G2 & G3).
  exists (t0 ++ t).
  split; [rewrite G1, Ht, <- app_assoc; reflexivity|].
  split; [rewrite forallb_app, (calm_quiet _ Hc), G2; reflexivity|].
  rewrite Hnet, Hid in G3.
  destruct (net s) as [|[|frames] rest].
  - destruct G3 as (A & B & C & D & E & F & G).
    repeat split; auto; try apply B; try apply C; try congruence.
    intros H. rewrite D. auto.
  - destruct G3 as (A & B & C & D & E & F & G).
    repeat split; auto; try apply B; try apply C; try congruence.
    intros H. rewrite D. auto.
  - rewrite fired_app, (calm_fired _ Hc).
    destruct G3 as (G3 & G4). split; [apply in_or_app; auto|exact G4].
Qed.

Lemma open_fuel_pos scripts : 1 <= open_fuel scripts.
Proof. destruct scripts as [|[|frames] rest]; simpl; lia. Qed.

(** [open()] called while no callback is running. *)
Lemma open_spec f s :
  at_rest s ->
  fresh s ->
  open_fuel (net s) <= f ->
  wp (open f) (open_post s) s.
Proof.
  intros (Hle & Hpk) Hfresh Hf.
  destruct f as [|f]; [pose proof (open_fuel_pos (net s)); lia|].
  rewrite open_unfold. unfold open_body.
  apply wp_bind, wp_saved_token. intros [token line] file t Hl Hc.
  apply wp_bind, wp_get. apply wp_bind. apply wp_when; intros Hpow.
  - unfold power in Hpow, Hpk. rsimpl.
    destruct (sock s) as [c|] eqn:Hs; [|discriminate].
    apply wp_close. rsimpl. rewrite Hs, Hpk. cbv zeta.
    apply wp_recv_fails.
    eapply wp_conseq.
    { apply (connect_handshake_spec f token line).
      - repeat split.
      - split; rsimpl; [apply Hfresh|intros x []].
      - rsimpl. exact Hf. }
    intros r s'.
    apply (handshake_post_open_post s _
             (t ++ [Close c; Log Info "Websocket closed"])); rsimpl; auto.
    + rewrite <- !app_assoc. reflexivity.
    + rewrite forallb_app, Hc. reflexivity.
    + rewrite Hs. discriminate.
  - unfold power in Hpow, Hpk. rsimpl.
    destruct (sock s) as [c|] eqn:Hs; [discriminate|].
    eapply wp_conseq.
    { apply (connect_handshake_spec f token line).
      - repeat split; rsimpl; auto.
      - split; rsimpl; apply Hfresh.
      - rsimpl. exact Hf. }
    intros r s'.
    apply (handshake_post_open_post s _ t); rsimpl; auto.
Qed.


Lemma skipn_trace {A} (l t : list A) : skipn (List.length l) (l ++ t) = t.
Proof. induction l; simpl; auto. Qed.

(** C9: [open()] is called while no callback is running and the
    connection is accepted.  If neither callback of this handshake (the
    "authorized" one and the "unauthorized" one, which share its
    [auth_event]) is invoked before the wait of 30 ends, then [open()]
    raises the error of the failed wait and the session is down. *)
Theorem auth_timeout f s frames rest r s' :
  at_rest s ->
  fresh s ->
  net s = Accept frames :: rest ->
  List.length frames + 3 <= f ->
  open f s = (r, s') ->
  (forall x, In x (fired (skipn (List.length (trace s)) (trace s'))) ->
             auth_pair (next_id s) x = false) ->
  r = Exc (RuntimeError "Auth Failure") /\
  sock s' = None /\
  power s' = false /\
  In (Wait (OnEvent (next_id s)) 30%Q)
     (skipn (List.length (trace s)) (trace s')).
Proof.
  intros Hrest Hfresh Hnet Hf Hrun Hnone.
  pose proof (open_spec f s Hrest Hfresh) as Hspec.
  rewrite Hnet in Hspec. simpl open_fuel in Hspec. specialize (Hspec Hf).
  apply wp_run with (r := r) (s' := s') in Hspec; [|exact Hrun].
  destruct Hspec as (t & G1 & G2 & G3). rewrite Hnet in G3.
  rewrite G1, skipn_trace in Hnone.
  rewrite G1, skipn_trace.
  destruct G3 as (Hwait & _ & [(_ & _ & x & Hx & Hx')|(-> & Hsock)]).
  - rewrite (Hnone x Hx) in Hx'. discriminate.
  - repeat split; auto. unfold power. rewrite Hsock. reflexivity.
Qed.

Lemma auth_timeout_witness :
  fst (open 3 silent_tv) = Exc (RuntimeError "Auth Failure") /\
  sock (snd (open 3 silent_tv)) = None /\
  power (snd (open 3 silent_tv)) = false /\
  In (Wait (OnEvent (next_id silent_tv)) 30%Q)
     (skipn (List.length (trace silent_tv)) (trace (snd (open 3 silent_tv)))).
Proof.
  apply (auth_timeout 3 silent_tv [] []).
  - split; reflexivity.
  - split; intros ? [].
  - reflexivity.
  - simpl. lia.
  - apply surjective_pairing.
  - intros x H. vm_compute in H. contradiction.
Defined.

(** Called while no callback is running, [open()] returns or raises one
    of its own two errors; the denial raised by [unauthorized_callback]
    never reaches its caller. *)
Lemma open_never_raises_denial f s :
  at_rest s ->
  fresh s ->
  open_fuel (net s) <= f ->
  fst (open f s) = Val tt \/
  fst (open f s) = Exc (RuntimeError "Unable to connect to the TV") \/
  fst (open f s) = Exc (RuntimeError "Auth Failure").
Proof.
  intros Hrest Hfresh Hf.
  pose proof (open_spec f s Hrest Hfresh Hf) as H. unfold wp in H.
  destruct H as (t & _ & _ & H).
  destruct (net s) as [|[|frames] rest].
  - right. left. apply H.
  - right. left. apply H.
  - destruct H as (_ & _ & [(H & _)|(H & _)]); auto.
Qed.
(** C8: over a whole run of the receive loop, whatever the frames and
    the callbacks, every invocation of an entry uses up one
    registration of it: invocations and remaining registrations
    together never exceed the registrations at the start.  So the
    handler of a registration is invoked at most once, and an invoked
    registration is no longer in the registry.  The same holds for every
    single message whose dispatch returns. *)
Theorem registration_fires_once f n s e :
  2 <= f ->
  parked s = false ->
  List.length (inbox s) + 2 <= n ->
  (exists s' t,
     loop (open f) n s = (Val tt, s') /\
     trace s' = trace s ++ t /\
     count e (fired t) + count e (registered_callbacks s')
     <= count e (registered_callbacks s)) /\
  (forall m c s' ,
     sock s = Some c ->
     on_message (open f) m s = (Val tt, s') ->
     exists t,
       trace s' = trace s ++ t /\
       count e (fired t) + count e (registered_callbacks s')
       <= count e (registered_callbacks s)).
Proof.
  intros Hf Hp Hn. split.
  - pose proof (loop_spec f Hf n s Hp (or_intror Hn)) as H.
    unfold wp in H. destruct (loop (open f) n s) as [r s']. simpl in H.
    destruct H as (-> & t & G1 & _ & G3 & _).
    exists s', t. auto.
  - intros m c s' Hs Hrun.
    pose proof (on_message_spec f m s c Hs Hp Hf) as H.
    apply wp_run with (r := Val tt) (s' := s') in H; [|exact Hrun].
    destruct H as (_ & t & G1 & _ & _ & _ & G6).
    exists t. split; [exact G1|]. apply G6.
Qed.

Lemma registration_fires_once_witness :
  let s := two_frames ime_start in
  let e := (ImeStart 5 1, "event", Some "ms.remote.imeStart") in
  (exists s' t,
     loop (open 2) 4 s = (Val tt, s') /\
     trace s' = trace s ++ t /\
     count e (fired t) + count e (registered_callbacks s')
     <= count e (registered_callbacks s)) /\
  (forall m c s' ,
     sock s = Some c ->
     on_message (open 2) m s = (Val tt, s') ->
     exists t,
       trace s' = trace s ++ t /\
       count e (fired t) + count e (registered_callbacks s')
       <= count e (registered_callbacks s)).
Proof.
  intros s e. apply (registration_fires_once 2 4 s e).
  - lia.
  - reflexivity.
  - simpl. lia.
Defined.

Lemma on_message_text open_rec j s :
  on_message open_rec (MText j) s
  = dispatch open_rec j (registered_callbacks s)
      (set_trace (trace s ++ [Log Debug "incoming message: "]) s).
Proof. reflexivity. Qed.

(** C2, amended: the dispatch of a decoded message inside the receive
    thread invokes the handlers of the registered entries (as registered
    when the message arrives) whose predicate matches, in registration
    order: all of them when it returns, the first ones, up to a handler
    that raises, otherwise; when it returns every invocation has used up
    one registration of its entry.  A message that matches no entry
    invokes no handler and leaves the registry unchanged. *)
Theorem dispatch_all_matching f j s c r s' :
  sock s = Some c ->
  parked s = false ->
  2 <= f ->
  on_message (open f) (MText j) s = (r, s') ->
  exists t,
    trace s' = trace s ++ t /\
    (exists k, fired t = firstn k (filter (hit j) (registered_callbacks s))) /\
    (r = Val tt ->
     fired t = filter (hit j) (registered_callbacks s) /\
     forall e, count e (fired t) + count e (registered_callbacks s')
               <= count e (registered_callbacks s)) /\
    (filter (hit j) (registered_callbacks s) = [] ->
     fired t = [] /\ registered_callbacks s' = registered_callbacks s).
Proof.
  intros Hs Hp Hf Hrun. rewrite on_message_text in Hrun.
  set (s1 := set_trace (trace s ++ [Log Debug "incoming message: "]) s) in *.
  assert (Hs1 : sock s1 = Some c) by exact Hs.
  assert (Hp1 : parked s1 = false) by exact Hp.
  pose proof (dispatch_order f j c (registered_callbacks s) s1 Hs1 Hp1 Hf) as Ho.
  pose proof (dispatch_spec f j c (registered_callbacks s) s1 Hs1 Hp1 Hf) as Hd.
  apply wp_run with (r := r) (s' := s') in Ho; [|exact Hrun].
  apply wp_run with (r := r) (s' := s') in Hd; [|exact Hrun].
  destruct Ho as (t & O1 & O2 & O3 & O4).
  destruct Hd as (_ & t' & D1 & _ & _ & _ & D5).
  assert (t' = t) by (rewrite O1 in D1; apply app_inv_head in D1; auto).
  subst t'.
  exists (Log Debug "incoming message: " :: t).
  split; [rewrite O1; unfold s1; rsimpl; rewrite <- app_assoc; reflexivity|].
  change (fired (Log Debug "incoming message: " :: t)) with (fired t).
  split; [exact O2|].
  split.
  - intros ->. split; [apply O4; reflexivity|]. apply D5.
  - intros Hnone. destruct O2 as (k & O2). rewrite Hnone in O2.
    assert (Hf0 : fired t = []) by (rewrite O2; destruct k; reflexivity).
    split; [exact Hf0|]. apply (O3 Hf0).
Qed.

Lemma dispatch_all_matching_witness :
  let s := two_frames ime_start in
  let rs := on_message (open 2) (MText (JObj ime_start)) s in
  exists t,
    trace (snd rs) = trace s ++ t /\
    (exists k, fired t
               = firstn k (filter (hit (JObj ime_start))
                                  (registered_callbacks s))) /\
    (fst rs = Val tt ->
     fired t = filter (hit (JObj ime_start)) (registered_callbacks s) /\
     forall e, count e (fired t) + count e (registered_callbacks (snd rs))
               <= count e (registered_callbacks s)) /\
    (filter (hit (JObj ime_start)) (registered_callbacks s) = [] ->
     fired t = [] /\
     registered_callbacks (snd rs) = registered_callbacks s).
Proof.
  intros s rs.
  apply (dispatch_all_matching 2 (JObj ime_start) s 0 (fst rs) (snd rs)).
  - reflexivity.
  - reflexivity.
  - lia.
  - apply surjective_pairing.
Defined.

End ReceiveFacts.

(* ================================================================== *)
(** * Power on *)

Module PowerOnFacts.

Import RegistryFacts ReceiveFacts.

















End PowerOnFacts.
